(** * daily-news-bot: a shallow embedding of [news_automator.py]

    The development follows the layout of the Python file: the string
    operations the program relies on, the effect monad (exceptions, log,
    network and mail), then one module per class ([NewsFetcher],
    [NewsSummarizer], [EmailSender], [NewsAutomator]), and finally the
    properties of the pipeline. *)

From Stdlib Require Import ZArith NArith Ascii String DecimalString.
From stdpp Require Import base option list gmap.

Local Open Scope Z_scope.

(** * Python strings *)

(** A Python [str] is a sequence of Unicode code points. *)
Abbreviation pystr := (list N).

Module PyStr.

(** Literals are written as UTF-8 text and decoded to code points. *)
Fixpoint utf8_go (pending : nat) (acc : N) (bs : list N) : pystr :=
  match bs with
  | [] => []
  | b :: bs' =>
    match pending with
    | O =>
      if (b <? 128)%N then b :: utf8_go 0 0 bs'
      else if (b <? 224)%N then utf8_go 1 (b - 192) bs'
      else if (b <? 240)%N then utf8_go 2 (b - 224) bs'
      else utf8_go 3 (b - 240) bs'
    | S O => (acc * 64 + (b - 128))%N :: utf8_go 0 0 bs'
    | S p => utf8_go p (acc * 64 + (b - 128))%N bs'
    end
  end.

Definition py (s : string) : pystr :=
  utf8_go 0 0 (map N_of_ascii (list_ascii_of_string s)).
Arguments py s%_string.

Definition space : N := 32%N.
Definition dquote : N := 34%N.

(** [len(s)] *)
Definition len {A} (l : list A) : Z := Z.of_nat (length l).

(** The characters [str.split()] treats as whitespace
    (CPython's [_PyUnicode_IsWhitespace]). *)
Definition is_space (c : N) : bool :=
  ((9 <=? c) && (c <=? 13) || (28 <=? c) && (c <=? 32)
   || (c =? 133) || (c =? 160) || (c =? 5760)
   || (8192 <=? c) && (c <=? 8202)
   || (c =? 8232) || (c =? 8233) || (c =? 8239) || (c =? 8287)
   || (c =? 12288))%N.

(** [s.split()]: the maximal runs of non-whitespace characters.  [word] is
    the run being scanned. *)
Fixpoint split_go (word : pystr) (s : pystr) : list pystr :=
  match s with
  | [] => match word with [] => [] | _ => [word] end
  | c :: s' =>
    if is_space c
    then match word with
         | [] => split_go [] s'
         | _ => word :: split_go [] s'
         end
    else split_go (word ++ [c]) s'
  end.

Definition split (s : pystr) : list pystr := split_go [] s.

(** [sep.join(ws)] *)
Fixpoint join (sep : pystr) (ws : list pystr) : pystr :=
  match ws with
  | [] => []
  | w :: ws' =>
    match ws' with
    | [] => w
    | _ => w ++ sep ++ join sep ws'
    end
  end.

(** [l[:n]], for a list or a string; a negative bound counts from the
    end, and bounds outside the sequence are clipped. *)
Definition slice_to {A} (l : list A) (n : Z) : list A :=
  if 0 <=? n then take (Z.to_nat n) l
  else take (Z.to_nat (len l + n)) l.

(** [s.rsplit(sep, 1)] for a separator of one character: the string is
    cut at the last occurrence of [sep], if there is one. *)
Fixpoint rsplit1 (sep : N) (s : pystr) : list pystr :=
  match s with
  | [] => [[]]
  | c :: s' =>
    match rsplit1 sep s' with
    | [t] => if (c =? sep)%N then [[]; t] else [c :: t]
    | h :: rest => (c :: h) :: rest
    | [] => [[c]]
    end
  end.

(** [l[0]]; the lists it is applied to are never empty
    (see [rsplit1_spec]). *)
Definition first (l : list pystr) : pystr := hd [] l.

(** [s * n] *)
Definition repeat_str (s : pystr) (n : nat) : pystr := mjoin (replicate n s).

(** [str(n)] for an integer. *)
Definition str_of_int (n : Z) : pystr :=
  py (NilZero.string_of_int (Z.to_int n)).

(** Double quotes inside the program's HTML literals are written as
    backquotes here (the literals contain no backquote). *)
Definition tpl (s : string) : pystr :=
  map (fun c => if (c =? 96)%N then dquote else c) (py s).
Arguments tpl s%_string.

Definition nl : pystr := [10%N].

End PyStr.
Import PyStr.

(** * Exceptions and effects *)

(** The classes of [Exception] the program can meet.  [KeyboardInterrupt]
    and [SystemExit] derive from [BaseException], not from [Exception]; no
    [except Exception] handler sees them and they are not modelled. *)
Inductive exn_class :=
| RequestException | JSONDecodeError | AttributeError | TypeError | SMTPException.

(** An exception with the text of [str(e)]. *)
Record exn := Exn { exn_cls : exn_class; exn_msg : pystr }.

Inductive result (A : Type) :=
| Ok (a : A)
| Raise (e : exn).
Arguments Ok {A} a.
Arguments Raise {A} e.

(** A JSON [null] or string, as Python sees it: [None] or a [str]. *)
Inductive pyopt :=
| PyNone
| PyStr (s : pystr).

#[global] Instance pyopt_eq_dec : EqDecision pyopt.
Proof. solve_decision. Defined.

(** [str(v)], as an f-string formats it. *)
Definition py_str (v : pyopt) : pystr :=
  match v with
  | PyNone => py "None"
  | PyStr s => s
  end.

#[global] Instance pyopt_countable : Countable pyopt.
Proof.
  refine (inj_countable'
            (fun v => match v with PyNone => None | PyStr s => Some s end)
            (fun o => match o with None => PyNone | Some s => PyStr s end) _).
  intros []; reflexivity.
Defined.

(** [not v], for the values the program tests. *)
Definition falsy (v : pyopt) : bool :=
  match v with
  | PyNone => true
  | PyStr [] => true
  | PyStr (_ :: _) => false
  end.

(** [d.get(key, default)] on a field that is present ([Some]) or not. *)
Definition dict_get {A} (field : option A) (dflt : A) : A :=
  match field with
  | Some v => v
  | None => dflt
  end.

(** The ["source"] value of an article: [null], or an object whose
    ["name"] is missing, [null] or a string. *)
Inductive jsource :=
| SourceNull
| SourceObj (name : option pyopt).

(** RawArticle: a JSON object of the API's ["articles"] array, reduced to
    the keys the program reads; [None] is a missing key. *)
Record article := Article {
  art_title : option pyopt;
  art_description : option pyopt;
  art_source : option jsource;
  art_url : option pyopt
}.

(** The value of ["articles"] in the response: [null] or an array. *)
Inductive jarticles :=
| ArticlesNull
| ArticlesList (l : list article).

(** What [response.json()] returns: JSON that is not an object (an array,
    a string, a number, [null]), or an object with its ["status"] and
    ["articles"] fields. *)
Inductive json_body :=
| NotAnObject (type_name : pystr)
| Object (status : option pyopt) (articles : option jarticles).

(** The response of [session.get]: [json()] parses the body or raises. *)
Record response := Response { resp_json : result json_body }.

(** The multipart message handed to SMTP. *)
Record message := Message {
  msg_subject : pystr;
  msg_from : pystr * pystr;
  msg_to : pystr;
  msg_plain : pystr;
  msg_html : pystr
}.

Inductive level := ERROR | WARNING | INFO.

(** What the program does to the outside world, in the order it does it. *)
Inductive event :=
| EvLog (lvl : level) (text : pystr)
| EvGet (url : pystr) (query : pystr)
| EvSleep (millis : Z)
| EvSmtp (server : pystr) (port : Z) (msg : message).

(** The outside world answers as a function of what has happened so far:
    [w_get] is the network and the API, [w_smtp] the mail server ([None]:
    the session succeeds), [w_now] the wall clock already formatted by
    [strftime]. *)
Record world := World {
  w_get : list event -> pystr -> result response;
  w_smtp : list event -> message -> option exn;
  w_now : list event -> pystr
}.

(** Computations: read the world, extend the trace of events, return a
    value or raise. *)
Definition M (A : Type) : Type := world -> list event -> result A * list event.

Module Eff.

Definition ret {A} (a : A) : M A := fun _ tr => (Ok a, tr).

Definition bind {A B} (m : M A) (k : A -> M B) : M B :=
  fun w tr =>
    match m w tr with
    | (Ok a, tr') => k a w tr'
    | (Raise e, tr') => (Raise e, tr')
    end.

Definition raise {A} (e : exn) : M A := fun _ tr => (Raise e, tr).

(** [try: body  except Exception as e: handler(e)] *)
Definition try_except {A} (body : M A) (handler : exn -> M A) : M A :=
  fun w tr =>
    match body w tr with
    | (Ok a, tr') => (Ok a, tr')
    | (Raise e, tr') => handler e w tr'
    end.

Definition emit (ev : event) : M unit := fun _ tr => (Ok tt, tr ++ [ev]).

Definition lift {A} (r : result A) : M A := fun _ tr => (r, tr).

(** [for x in l: acc = body(x, acc)] *)
Fixpoint for_each {A S} (l : list A) (body : A -> S -> M S) (acc : S) : M S :=
  match l with
  | [] => ret acc
  | x :: l' => bind (body x acc) (for_each l' body)
  end.

(** [[f(x) for x in l]] *)
Fixpoint map_m {A B} (f : A -> M B) (l : list A) : M (list B) :=
  match l with
  | [] => ret []
  | x :: l' => bind (f x) (fun y => bind (map_m f l') (fun ys => ret (y :: ys)))
  end.

End Eff.

Notation "'do' x <- c1 ; c2" := (Eff.bind c1 (fun x => c2))
  (at level 10, x name, c1 at level 100, c2 at level 200).
Notation "'do' ' pat <- c1 ; c2" :=
  (Eff.bind c1 (fun x => match x with pat => c2 end))
  (at level 10, pat pattern, c1 at level 100, c2 at level 200).

(** [logger.error], [logger.warning], [logger.info], [time.sleep]. *)
Definition log (lvl : level) (text : pystr) : M unit := Eff.emit (EvLog lvl text).
Definition sleep (millis : Z) : M unit := Eff.emit (EvSleep millis).

(** * class NewsFetcher *)

Module NewsFetcher.

Definition base_url : pystr := py "https://newsapi.org/v2".

(** [self.session.get(url, params=params, timeout=30)]: the query is the
    only parameter that varies. *)
Definition session_get (url query : pystr) : M response :=
  fun w tr => (w_get w tr query, tr ++ [EvGet url query]).

(** [a.get('title') and a['title'] != '[Removed]'], as a truth value. *)
Definition has_title (a : article) : bool :=
  match art_title a with
  | None => false
  | Some v => negb (falsy v) && negb (bool_decide (v = PyStr (py "[Removed]")))
  end.

(** The body of the [try] block. *)
Definition search_news_try (query : pystr) : M (list article) :=
  do response <- session_get (base_url ++ py "/everything") query;
  do data <- Eff.lift (resp_json response);
  match data with
  | NotAnObject ty =>
    Eff.raise (Exn AttributeError
                 (py "'" ++ ty ++ py "' object has no attribute 'get'"))
  | Object status articles =>
    if bool_decide (dict_get status PyNone = PyStr (py "ok")) then
      match dict_get articles (ArticlesList []) with
      | ArticlesNull =>
        Eff.raise (Exn TypeError (py "'NoneType' object is not iterable"))
      | ArticlesList l =>
        let articles := filter has_title l in
        Eff.ret (slice_to articles 6)
      end
    else Eff.ret []
  end.

Definition search_news (query : pystr) : M (list article) :=
  Eff.try_except (search_news_try query)
    (fun e => do _ <- log ERROR (py "Error: " ++ exn_msg e); Eff.ret []).

End NewsFetcher.

(** * class NewsSummarizer *)

(** ArticleSummary: the dict built by [create_summary]. *)
Record summary := Summary {
  sum_title : pystr;
  sum_summary : pystr;
  sum_source : pyopt;
  sum_url : pyopt
}.

Module NewsSummarizer.

Definition no_details : pystr := py "No details available".
Definition ellipsis : pystr := py "...".

Definition clean_text (text : pyopt) (max_len : Z) : pystr :=
  if falsy text then no_details
  else
    let text := slice_to (join [space] (split (py_str text))) max_len in
    if len text <? max_len then text
    else first (rsplit1 space text) ++ ellipsis.

Definition create_summary (a : article) : M summary :=
  do title <-
    match dict_get (art_title a) (PyStr (py "No Title")) with
    | PyStr s => Eff.ret (slice_to s 100)
    | PyNone =>
      Eff.raise (Exn TypeError (py "'NoneType' object is not subscriptable"))
    end;
  let summary := clean_text (dict_get (art_description a) (PyStr [])) 150 in
  do source <-
    match dict_get (art_source a) (SourceObj None) with
    | SourceObj name => Eff.ret (dict_get name (PyStr (py "Unknown")))
    | SourceNull =>
      Eff.raise (Exn AttributeError
                   (py "'NoneType' object has no attribute 'get'"))
    end;
  Eff.ret {| sum_title := title; sum_summary := summary;
             sum_source := source;
             sum_url := dict_get (art_url a) (PyStr []) |}.

End NewsSummarizer.

(** * class EmailSender *)

(** The ['email'] block of the configuration. *)
Record email_config := EmailConfig {
  smtp_server : pystr;
  smtp_port : Z;
  sender_email : pystr;
  sender_password : pystr;
  recipient_email : pystr
}.

(** Digest: [news_data], from category key to summaries. *)
Abbreviation digest := (gmap pystr (list summary)).

Module EmailSender.

Definition html_head (date_str : pystr) : pystr :=
  py "<!DOCTYPE html>
<html><head><meta charset='UTF-8'><meta name='viewport' content='width=device-width, initial-scale=1.0'>
<title>Daily News</title>
<style>
body{font-family:-apple-system,BlinkMacSystemFont,'Segoe UI',Roboto,sans-serif;background:#f5f7fa;padding:15px}
.container{max-width:680px;margin:0 auto}
.header{background:linear-gradient(135deg,#1e3c72,#2a5298);color:white;padding:30px;border-radius:16px;text-align:center;margin-bottom:20px}
.category{background:white;border-radius:12px;padding:20px;margin-bottom:18px;box-shadow:0 2px 8px rgba(0,0,0,0.06)}
.cat-header{display:flex;align-items:center;margin-bottom:15px;padding-bottom:12px;border-bottom:2px solid #f0f2f5}
.cat-icon{font-size:26px;margin-right:12px}
.cat-title{font-size:18px;font-weight:700;color:#1e3c72}
.news-item{padding:14px 0;border-bottom:1px solid #f0f0f0}
.news-title{font-size:15px;font-weight:600;margin-bottom:6px}
.news-title a{color:#2a5298;text-decoration:none}
.news-source{font-size:12px;color:#888;margin-bottom:8px}
.news-summary{font-size:14px;color:#555;background:#f8f9fa;padding:12px;border-radius:8px;border-left:3px solid #2a5298}
.read-btn{display:inline-block;margin-top:8px;font-size:13px;color:#2a5298;text-decoration:none;font-weight:500}
.stats{background:#e8f4fd;padding:12px;border-radius:8px;text-align:center;margin-bottom:20px;font-size:14px;color:#1e3c72}
</style></head><body><div class='container'>
<div class='header'><h1>📰 Your Daily News Briefing</h1><p>"
  ++ date_str ++ py " • Easy to understand</p></div>".

(** [cat_info]: category key, then (emoji, name, description), in the
    order of the dict literal. *)
Definition cat_info : list (pystr * (pystr * pystr * pystr)) :=
  [ (py "national",
     (py "📰", py "NATIONAL (INDIA)", py "Govt schemes, laws, policies"));
    (py "international",
     (py "🌍", py "INTERNATIONAL", py "Global news, India relations"));
    (py "economy",
     (py "💰", py "ECONOMY & BUSINESS", py "Money, markets, companies"));
    (py "science",
     (py "📈", py "SCIENCE & TECH", py "AI, space, inventions"));
    (py "education",
     (py "🎓", py "EDUCATION & EXAMS", py "Exams, results, admissions"));
    (py "environment",
     (py "🌱", py "ENVIRONMENT", py "Climate, disasters"));
    (py "technology",
     (py "📊", py "TECHNOLOGY", py "Tech news, AI"));
    (py "health",
     (py "🏥", py "HEALTH", py "Medical, wellness")) ].

(** [news_data.get(cat_key, [])] *)
Definition articles_of (news_data : digest) (cat_key : pystr) : list summary :=
  default [] (news_data !! cat_key).

(** The text added to [html] for one article (line 130). *)
Definition html_item (news : summary) : pystr :=
  let title := sum_title news in
  let summary := sum_summary news in
  let source := py_str (sum_source news) in
  let url := py_str (sum_url news) in
  tpl "<div class=`news-item`><div class=`news-title`><a href=`" ++ url
  ++ tpl "` target=`_blank`>" ++ title
  ++ tpl "</a></div><div class=`news-source`>📰 " ++ source
  ++ tpl "</div><div class=`news-summary`>" ++ summary
  ++ tpl "</div><a href=`" ++ url
  ++ tpl "` class=`read-btn` target=`_blank`>→ Read full article</a></div>".

(** One round of the first [for cat_key, (emoji, name, _) in ...] loop,
    on the pair ([total], [html]). *)
Definition html_step (news_data : digest)
    (entry : pystr * (pystr * pystr * pystr)) (acc : Z * pystr) : Z * pystr :=
  let '(cat_key, (emoji, name, _)) := entry in
  let '(total, html) := acc in
  let articles := articles_of news_data cat_key in
  match articles with
  | [] => (total, html)
  | _ =>
    let total := total + len articles in
    let html :=
      html ++ tpl "<div class=`category`><div class=`cat-header`><span class=`cat-icon`>"
      ++ emoji ++ tpl "</span><span class=`cat-title`>" ++ name
      ++ py "</span></div>" in
    let html := foldl (fun html news => html ++ html_item news) html articles in
    (total, html ++ py "</div>")
  end.

(** [len([k for k, v in news_data.items() if v])] *)
Definition nonempty_categories (news_data : digest) : Z :=
  len (filter (fun kv => kv.2 <> []) (map_to_list news_data)).

(** The text added to [text] for the [i]-th article (line 141);
    [None[:40]] raises. *)
Definition text_item (i : Z) (news : summary) : M pystr :=
  do url40 <-
    match sum_url news with
    | PyStr url => Eff.ret (slice_to url 40)
    | PyNone =>
      Eff.raise (Exn TypeError (py "'NoneType' object is not subscriptable"))
    end;
  Eff.ret (str_of_int i ++ py ". " ++ sum_title news ++ nl
           ++ py "   📝 " ++ sum_summary news ++ nl
           ++ py "   🔗 " ++ url40 ++ py "..." ++ nl ++ nl).

(** [enumerate(articles, 1)] *)
Definition enumerate1 {A} (l : list A) : list (Z * A) :=
  imap (fun i x => (Z.of_nat i + 1, x)) l.

(** One round of the second loop over [cat_info], on [text]. *)
Definition text_step (news_data : digest)
    (entry : pystr * (pystr * pystr * pystr)) (text : pystr) : M pystr :=
  let '(cat_key, (emoji, name, _)) := entry in
  let articles := articles_of news_data cat_key in
  match articles with
  | [] => Eff.ret text
  | _ =>
    let text :=
      text ++ (emoji ++ py " " ++ name ++ nl) ++ repeat_str (py "─") 40 ++ nl in
    Eff.for_each (enumerate1 articles)
      (fun '(i, news) text => do item <- text_item i news; Eff.ret (text ++ item))
      text
  end.

Definition create_email (news_data : digest) (date_str : pystr)
  : M (pystr * pystr) :=
  let html := html_head date_str in
  let total := 0 in
  let '(total, html) :=
    foldl (fun acc entry => html_step news_data entry acc) (total, html) cat_info in
  let html :=
    html ++ py "<div class='stats'>📊 " ++ str_of_int total
    ++ py " stories from " ++ str_of_int (nonempty_categories news_data)
    ++ py " categories</div></div></body></html>" in
  let text :=
    py "📰 DAILY NEWS - " ++ date_str ++ nl ++ repeat_str (py "=") 50
    ++ nl ++ nl in
  do text <- Eff.for_each cat_info (text_step news_data) text;
  let text :=
    text ++ repeat_str (py "=") 50 ++ nl ++ py "🔄 Auto-generated | "
    ++ str_of_int total ++ py " stories" in
  Eff.ret (text, html).

(** The SMTP session of [send]: connect, STARTTLS, login, send, close. *)
Definition smtp_session (cfg : email_config) (msg : message) : M unit :=
  fun w tr =>
    (match w_smtp w tr msg with
     | None => Ok tt
     | Some e => Raise e
     end, tr ++ [EvSmtp (smtp_server cfg) (smtp_port cfg) msg]).

Definition send (cfg : email_config) (subject text html : pystr) : M bool :=
  Eff.try_except
    (let msg :=
       {| msg_subject := subject;
          msg_from := (py "📰 Daily News", sender_email cfg);
          msg_to := recipient_email cfg;
          msg_plain := text;
          msg_html := html |} in
     do _ <- smtp_session cfg msg;
     do _ <- log INFO (py "✅ Email sent!");
     Eff.ret true)
    (fun e => do _ <- log ERROR (py "❌ Error: " ++ exn_msg e); Eff.ret false).

End EmailSender.

(** * class NewsAutomator *)

Module NewsAutomator.

(** [TOPICS]: category key and its queries, in the order of the dict
    literal. *)
Definition TOPICS : list (pystr * list pystr) :=
  [ (py "national",
     [py "India government scheme"; py "Parliament law India";
      py "Supreme Court India judgment"; py "NEP education India"]);
    (py "international",
     [py "global news India"; py "India foreign relations"; py "UN WHO India"]);
    (py "economy",
     [py "India economy"; py "RBI inflation India"; py "stock market India";
      py "company news India"; py "budget India"]);
    (py "technology",
     [py "AI technology India"; py "ISRO mission"; py "cybersecurity India";
      py "tech news India"]);
    (py "science",
     [py "scientific discovery"; py "space mission"; py "research breakthrough"]);
    (py "health",
     [py "health news India"; py "medical breakthrough"; py "disease outbreak"]);
    (py "education",
     [py "JEE NEET 2024"; py "UPSC exam"; py "board exam result India";
      py "scholarship India"]);
    (py "environment",
     [py "climate change India"; py "cyclone flood India";
      py "environment policy India"]) ].

(** [art.get('url', '')] *)
Definition url_of (art : article) : pyopt := dict_get (art_url art) (PyStr []).

(** One round of [for art in all_articles], on the pair
    ([seen_urls], [unique_articles]). *)
Definition dedup_step (acc : gset pyopt * list article) (art : article)
  : gset pyopt * list article :=
  let '(seen_urls, unique_articles) := acc in
  let url := url_of art in
  if negb (falsy url) && negb (bool_decide (url ∈ seen_urls))
  then ({[url]} ∪ seen_urls, unique_articles ++ [art])
  else (seen_urls, unique_articles).

(** [unique_articles] when the loop over [all_articles] ends. *)
Definition dedup (all_articles : list article) : list article :=
  (foldl dedup_step (∅, []) all_articles).2.

(** The loop over the queries of one category: [all_articles]. *)
Definition fetch_queries (queries : list pystr) : M (list article) :=
  Eff.for_each queries
    (fun query all_articles =>
       do articles <- NewsFetcher.search_news query;
       let all_articles := all_articles ++ articles in
       do _ <- sleep 500;
       Eff.ret all_articles)
    [].

(** One round of [for cat_key, queries in self.TOPICS.items()]. *)
Definition fetch_category (entry : pystr * list pystr) (news_data : digest)
  : M digest :=
  let '(cat_key, queries) := entry in
  do all_articles <- fetch_queries queries;
  let unique_articles := dedup all_articles in
  do summaries <-
    Eff.map_m NewsSummarizer.create_summary (slice_to unique_articles 4);
  Eff.ret (<[cat_key := summaries]> news_data).

Definition fetch_all_news : M digest :=
  Eff.for_each TOPICS fetch_category ∅.

(** [datetime.now().strftime("%B %d, %Y")] *)
Definition now_strftime : M pystr := fun w tr => (Ok (w_now w tr), tr).

(** [sum(len(a) for a in news_data.values())] *)
Definition total_articles (news_data : digest) : Z :=
  foldr (fun a acc => len a + acc) 0 (map_to_list news_data).*2.

Definition run (cfg : email_config) : M bool :=
  do _ <- log INFO (py "🚀 Fetching and sending news...");
  do date_str <- now_strftime;
  do news_data <- fetch_all_news;
  let total := total_articles news_data in
  if total =? 0 then
    do _ <- log WARNING (py "⚠️ No news found");
    Eff.ret false
  else
    do '(text, html) <- EmailSender.create_email news_data date_str;
    do success <-
      EmailSender.send cfg
        (py "📰 Daily News - " ++ date_str ++ py " (" ++ str_of_int total
         ++ py " updates)")
        text html;
    do _ <- log INFO (py "✅ Done! Sent " ++ str_of_int total ++ py " articles");
    Eff.ret success.

End NewsAutomator.

(** * Properties of the string operations *)

Section StringFacts.

Implicit Types (s t word : pystr) (ws : list pystr) (c sep : N).

(** A word: a non-empty run of characters none of which is whitespace. *)
Definition no_space (w : pystr) : Prop := Forall (fun c => is_space c = false) w.
Definition is_word (w : pystr) : Prop := w <> [] /\ no_space w.

Lemma is_space_space : is_space space = true.
Proof. reflexivity. Qed.

Lemma no_space_not_elem w : no_space w -> space ∉ w.
Proof.
  intros Hw Hin. unfold no_space in Hw. rewrite Forall_forall in Hw.
  specialize (Hw _ Hin). rewrite is_space_space in Hw. discriminate.
Qed.

Lemma split_go_app word w s :
  no_space w -> split_go word (w ++ s) = split_go (word ++ w) s.
Proof.
  intros Hw. revert word. induction Hw as [|c w Hc _ IH]; intros word; simpl.
  - by rewrite app_nil_r.
  - rewrite Hc, IH. by rewrite <- app_assoc.
Qed.

Lemma split_go_sep word c s :
  is_space c = true -> word <> [] ->
  split_go word (c :: s) = word :: split_go [] s.
Proof. intros Hc Hw. simpl. rewrite Hc. by destruct word. Qed.

Lemma split_go_words s : forall word,
  no_space word -> Forall is_word (split_go word s).
Proof.
  induction s as [|c s IH]; intros word Hword; simpl.
  - destruct word; [constructor|]. constructor; [split; done|constructor].
  - destruct (is_space c) eqn:Hc.
    + destruct word as [|d word]; [apply IH; constructor|].
      constructor; [split; done|]. apply IH. constructor.
    + apply IH. apply Forall_app. split; [done|]. by constructor.
Qed.

(** [split] returns words. *)
Lemma split_words s : Forall is_word (split s).
Proof. apply split_go_words. constructor. Qed.

Lemma join_cons sep_s w ws :
  ws <> [] -> join sep_s (w :: ws) = w ++ sep_s ++ join sep_s ws.
Proof. by destruct ws. Qed.

(** Splitting the join of words gives the words back. *)
Lemma split_join ws : Forall is_word ws -> split (join [space] ws) = ws.
Proof.
  unfold split. induction 1 as [|w ws [Hne Hw] Hws IH]; [done|].
  destruct ws as [|w' ws].
  - simpl. rewrite <- (app_nil_r w) at 1. rewrite split_go_app by done.
    simpl. by destruct w.
  - rewrite join_cons by done. rewrite split_go_app by done.
    simpl app at 1. change ([space] ++ ?x) with (space :: x).
    rewrite split_go_sep by done. by rewrite IH.
Qed.

(** A space in a join of words is one of the separators. *)
Lemma join_space_inv ws h r :
  Forall no_space ws ->
  join [space] ws = h ++ space :: r ->
  exists k, (0 < k < length ws)%nat /\
    h = join [space] (take k ws) /\ r = join [space] (drop k ws).
Proof.
  intros Hws. revert h. induction Hws as [|w ws Hw Hws IH]; intros h Heq.
  - by destruct h.
  - destruct ws as [|w' ws].
    + simpl in Heq. apply no_space_not_elem in Hw. destruct Hw.
      rewrite Heq. set_solver.
    + rewrite join_cons in Heq by done.
      apply no_space_not_elem in Hw.
      remember (join [space] (w' :: ws)) as rest eqn:Hrest.
      assert (Hone : exists k, (0 < k < length (w :: w' :: ws))%nat /\
                w = join [space] (take k (w :: w' :: ws)) /\
                rest = join [space] (drop k (w :: w' :: ws))).
      { exists 1%nat. subst rest. simpl. split; [lia|done]. }
      apply app_eq_app in Heq as [l [[Hw' Heq]|[Hh Heq]]].
      * destruct l as [|c l].
        { rewrite app_nil_r in Hw'. simpl in Heq. injection Heq as ->.
          by subst h. }
        simpl in Heq. injection Heq as <- _. destruct Hw. set_solver.
      * destruct l as [|c l].
        { rewrite app_nil_r in Hh. simpl in Heq. injection Heq as <-.
          by subst h. }
        simpl in Heq. injection Heq as <- Heq. subst rest.
        apply IH in Heq as (k & Hk & -> & ->).
        exists (S k). split; [simpl in *; lia|]. split; [|done]. subst h.
        change (take (S k) (w :: w' :: ws)) with (w :: take k (w' :: ws)).
        rewrite join_cons; [done|]. destruct k; [lia|done].
Qed.

Lemma rsplit1_no_sep sep s : sep ∉ s -> rsplit1 sep s = [s].
Proof.
  induction s as [|c s IH]; intros Hs; [done|]. simpl.
  rewrite IH by set_solver.
  destruct (N.eqb_spec c sep); [set_solver|done].
Qed.

Lemma rsplit1_last sep h t :
  sep ∉ t -> rsplit1 sep (h ++ sep :: t) = [h; t].
Proof.
  intros Ht. induction h as [|c h IH]; simpl.
  - rewrite rsplit1_no_sep by done. by rewrite N.eqb_refl.
  - by rewrite IH.
Qed.

(** Where the last separator of a string is, if it has one. *)
Lemma last_sep sep s :
  (sep ∉ s) \/ (exists h t, s = h ++ sep :: t /\ sep ∉ t).
Proof.
  induction s as [|c s [IH|(h & t & -> & Ht)]].
  - left. set_solver.
  - destruct (decide (c = sep)) as [->|Hne].
    + right. by exists [], s.
    + left. set_solver.
  - right. by exists (c :: h), t.
Qed.

(** [rsplit1] returns one piece, or the two pieces around the last
    separator. *)
Lemma rsplit1_spec sep s :
  ((sep ∉ s) /\ rsplit1 sep s = [s]) \/
  (exists h t, s = h ++ sep :: t /\ (sep ∉ t) /\ rsplit1 sep s = [h; t]).
Proof.
  destruct (last_sep sep s) as [Hs|(h & t & -> & Ht)].
  - left. split; [done|]. by apply rsplit1_no_sep.
  - right. exists h, t. split; [done|]. split; [done|]. by apply rsplit1_last.
Qed.

Lemma slice_to_nonneg {A} (l : list A) (n : Z) :
  0 <= n -> slice_to l n = take (Z.to_nat n) l.
Proof. intros Hn. unfold slice_to. by rewrite (proj2 (Z.leb_le 0 n)). Qed.

Lemma len_app {A} (l1 l2 : list A) : len (l1 ++ l2) = len l1 + len l2.
Proof. unfold len. rewrite length_app. lia. Qed.

End StringFacts.

(** * Properties of [NewsSummarizer.clean_text] *)

Section CleanText.

Import NewsSummarizer.

(** The whitespace-collapsed form of a text: [' '.join(text.split())]. *)
Definition collapse (s : pystr) : pystr := join [space] (split s).

Lemma collapse_nil : collapse [] = [].
Proof. reflexivity. Qed.

Lemma clean_text_unfold (s : pystr) (max_len : Z) :
  s <> [] ->
  clean_text (PyStr s) max_len =
    let text := slice_to (collapse s) max_len in
    if len text <? max_len then text
    else first (rsplit1 space text) ++ ellipsis.
Proof. intros Hs. unfold clean_text. by destruct s. Qed.

(** C1: when the collapsed form of the text is longer than [max_len], the
    result is [kept ++ "..."] with at most [max_len] characters kept; if the
    slice of [max_len] characters has a space, [kept] is the first [k] whole
    words of the text joined by single spaces and is followed by a space in
    the collapsed form; if the slice has no space, [kept] is the slice. *)
Theorem clean_text_truncates (s : pystr) (max_len : Z) :
  0 <= max_len ->
  max_len < len (collapse s) ->
  let slice := slice_to (collapse s) max_len in
  exists kept,
    clean_text (PyStr s) max_len = kept ++ ellipsis /\
    len (clean_text (PyStr s) max_len) <= max_len + len ellipsis /\
    (space ∈ slice ->
       exists k, (0 < k < length (split s))%nat /\
         kept = join [space] (take k (split s)) /\
         collapse s = kept ++ [space] ++ join [space] (drop k (split s))) /\
    (space ∉ slice -> kept = slice).
Proof.
  intros Hmax Hlen slice.
  assert (Hs : s <> []).
  { intros ->. rewrite collapse_nil in Hlen. unfold len in Hlen.
    simpl in Hlen. lia. }
  assert (Hslice : slice = take (Z.to_nat max_len) (collapse s)).
  { by apply slice_to_nonneg. }
  assert (Hsl : len slice = max_len).
  { rewrite Hslice. unfold len in *. rewrite length_take. lia. }
  rewrite clean_text_unfold by done. cbv zeta. fold slice.
  rewrite Hsl, Z.ltb_irrefl.
  exists (first (rsplit1 space slice)). split; [done|].
  destruct (rsplit1_spec space slice)
    as [[Hno ->]|(h & t & Hcut & Ht & ->)]; simpl first.
  - split; [rewrite len_app; lia|]. split; [done|done].
  - assert (Hh : len h < max_len).
    { rewrite <- Hsl, Hcut, len_app. unfold len. simpl. lia. }
    split; [rewrite len_app; lia|]. split; [|intros Hno; destruct Hno;
      rewrite Hcut; set_solver].
    intros _.
    assert (Hc : collapse s = h ++ space :: (t ++ drop (Z.to_nat max_len) (collapse s))).
    { rewrite <- (take_drop (Z.to_nat max_len) (collapse s)) at 1.
      rewrite <- Hslice, Hcut. by rewrite <- app_assoc. }
    pose proof Hc as Hc'.
    apply join_space_inv in Hc' as (k & Hk & Hkept & Hrest).
    + exists k. split; [done|]. split; [done|]. by rewrite <- Hrest.
    + eapply Forall_impl; [apply split_words|]. by intros w [_ Hw].
Qed.

Lemma clean_text_truncates_witness :
  exists kept,
    clean_text (PyStr (py "A  storm   hits the coast")) 12 = kept ++ ellipsis /\
    len (clean_text (PyStr (py "A  storm   hits the coast")) 12) <= 12 + len ellipsis /\
    (space ∈ slice_to (collapse (py "A  storm   hits the coast")) 12 ->
       exists k, (0 < k < length (split (py "A  storm   hits the coast")))%nat /\
         kept = join [space] (take k (split (py "A  storm   hits the coast"))) /\
         collapse (py "A  storm   hits the coast") =
           kept ++ [space] ++ join [space] (drop k (split (py "A  storm   hits the coast")))) /\
    (space ∉ slice_to (collapse (py "A  storm   hits the coast")) 12 ->
       kept = slice_to (collapse (py "A  storm   hits the coast")) 12).
Proof.
  apply (clean_text_truncates (py "A  storm   hits the coast") 12).
  - lia.
  - vm_compute. reflexivity.
Defined.

(** The two shapes of the result on a concrete text. *)
Example clean_text_cut_at_word :
  clean_text (PyStr (py "A  storm   hits the coast")) 12 = py "A storm...".
Proof. reflexivity. Qed.

Example clean_text_no_space :
  clean_text (PyStr (py "Thunderstorms ahead")) 7 = py "Thunder...".
Proof. reflexivity. Qed.

(** With a negative [max_len] the slice drops characters from the end and
    the marker is still appended. *)
Example clean_text_negative :
  clean_text (PyStr (py "abcdef")) (-1) = py "abcde...".
Proof. reflexivity. Qed.

(** C2, as stated, fails on the empty text: its collapsed form has length 0,
    below [max_len], and the result is the default text. *)
Lemma clean_text_empty_default :
  len (collapse (py "")) < 150 /\
  clean_text (PyStr (py "")) 150 <> collapse (py "").
Proof. split; [reflexivity|]. intros H. vm_compute in H. discriminate. Qed.

(** C2, amended: for a non-empty text whose collapsed form is shorter than
    [max_len], the result is the collapsed form itself: the words of the
    text, all of them, joined by single spaces, with no marker. *)
Theorem clean_text_short (s : pystr) (max_len : Z) :
  s <> [] ->
  len (collapse s) < max_len ->
  clean_text (PyStr s) max_len = join [space] (split s) /\
  split (clean_text (PyStr s) max_len) = split s.
Proof.
  intros Hs Hlen.
  assert (Heq : clean_text (PyStr s) max_len = collapse s).
  { rewrite clean_text_unfold by done. cbv zeta.
    assert (Hmax : 0 <= max_len) by (unfold len in Hlen; lia).
    rewrite slice_to_nonneg by done.
    rewrite take_ge by (unfold len in Hlen; lia).
    by rewrite (proj2 (Z.ltb_lt _ _) Hlen). }
  rewrite Heq. split; [done|]. apply split_join, split_words.
Qed.

Lemma clean_text_short_witness :
  clean_text (PyStr (py "  Rain   and
 wind ")) 150 = join [space] (split (py "  Rain   and
 wind ")) /\
  split (clean_text (PyStr (py "  Rain   and
 wind ")) 150) = split (py "  Rain   and
 wind ").
Proof.
  apply (clean_text_short (py "  Rain   and
 wind ") 150).
  - discriminate.
  - vm_compute. reflexivity.
Defined.

Example clean_text_short_value :
  clean_text (PyStr (py "  Rain   and
 wind ")) 150 = py "Rain and wind".
Proof. reflexivity. Qed.

End CleanText.

(** * Reasoning about computations *)

Section EffFacts.

Context {A B : Type}.

Lemma bind_ok_inv (m : M A) (k : A -> M B) w tr b tr2 :
  Eff.bind m k w tr = (Ok b, tr2) ->
  exists a tr1, m w tr = (Ok a, tr1) /\ k a w tr1 = (Ok b, tr2).
Proof.
  unfold Eff.bind. destruct (m w tr) as [[a|e] tr1]; [|done]. eauto.
Qed.

Lemma bind_ok (m : M A) (k : A -> M B) w tr a tr1 :
  m w tr = (Ok a, tr1) -> Eff.bind m k w tr = k a w tr1.
Proof. unfold Eff.bind. by intros ->. Qed.

Lemma bind_raise (m : M A) (k : A -> M B) w tr e tr1 :
  m w tr = (Raise e, tr1) -> Eff.bind m k w tr = (Raise e, tr1).
Proof. unfold Eff.bind. by intros ->. Qed.

End EffFacts.

(** [m] appends to the trace, and only events that satisfy [P]. *)
Definition emits {A} (P : event -> Prop) (m : M A) : Prop :=
  forall w tr, exists new, (m w tr).2 = tr ++ new /\ Forall P new.

Section Emits.

Context (P : event -> Prop).

Lemma emits_ret {A} (a : A) : emits P (Eff.ret a).
Proof. intros w tr. exists []. by rewrite app_nil_r. Qed.

Lemma emits_raise {A} e : emits P (@Eff.raise A e).
Proof. intros w tr. exists []. by rewrite app_nil_r. Qed.

Lemma emits_lift {A} (r : result A) : emits P (Eff.lift r).
Proof. intros w tr. exists []. by rewrite app_nil_r. Qed.

Lemma emits_emit ev : P ev -> emits P (Eff.emit ev).
Proof. intros Hev w tr. exists [ev]. split; [done|]. by constructor. Qed.

Lemma emits_bind {A B} (m : M A) (k : A -> M B) :
  emits P m -> (forall a, emits P (k a)) -> emits P (Eff.bind m k).
Proof.
  intros Hm Hk w tr. unfold Eff.bind.
  destruct (Hm w tr) as (new1 & Htr1 & Hnew1).
  destruct (m w tr) as [[a|e] tr1]; simpl in Htr1; subst tr1.
  - destruct (Hk a w (tr ++ new1)) as (new2 & Htr2 & Hnew2).
    exists (new1 ++ new2). rewrite Htr2, app_assoc. split; [done|].
    by apply Forall_app.
  - by exists new1.
Qed.

Lemma emits_try_except {A} (body : M A) (handler : exn -> M A) :
  emits P body -> (forall e, emits P (handler e)) ->
  emits P (Eff.try_except body handler).
Proof.
  intros Hm Hk w tr. unfold Eff.try_except.
  destruct (Hm w tr) as (new1 & Htr1 & Hnew1).
  destruct (body w tr) as [[a|e] tr1]; simpl in Htr1; subst tr1.
  - by exists new1.
  - destruct (Hk e w (tr ++ new1)) as (new2 & Htr2 & Hnew2).
    exists (new1 ++ new2). rewrite Htr2, app_assoc. split; [done|].
    by apply Forall_app.
Qed.

Lemma emits_for_each {A S} (l : list A) (body : A -> S -> M S) (acc : S) :
  (forall x acc, emits P (body x acc)) -> emits P (Eff.for_each l body acc).
Proof.
  intros Hbody. revert acc. induction l as [|x l IH]; intros acc; simpl.
  - apply emits_ret.
  - apply emits_bind; [apply Hbody|apply IH].
Qed.

Lemma emits_map_m {A B} (f : A -> M B) (l : list A) :
  (forall x, emits P (f x)) -> emits P (Eff.map_m f l).
Proof.
  intros Hf. induction l as [|x l IH]; simpl.
  - apply emits_ret.
  - apply emits_bind; [apply Hf|]. intros y.
    apply emits_bind; [apply IH|]. intros ys. apply emits_ret.
Qed.

End Emits.

(** A loop invariant for [for_each], for the runs that do not raise. *)
Lemma for_each_inv {A S} (I : S -> Prop) (body : A -> S -> M S) (l : list A)
    (w : world) :
  (forall x acc tr acc' tr',
      x ∈ l -> I acc -> body x acc w tr = (Ok acc', tr') -> I acc') ->
  forall acc tr acc' tr',
    I acc -> Eff.for_each l body acc w tr = (Ok acc', tr') -> I acc'.
Proof.
  induction l as [|x l IH]; intros Hbody acc tr acc' tr' Hacc Hrun; simpl in Hrun.
  - by injection Hrun as <- _.
  - apply bind_ok_inv in Hrun as (acc1 & tr1 & Hx & Hrun).
    eapply IH; [| |exact Hrun].
    + intros y ? ? ? ? Hy. apply Hbody. by right.
    + eapply Hbody; [by left|exact Hacc|exact Hx].
Qed.

(** * Properties of [NewsFetcher.search_news] *)

Section SearchNews.

Import NewsFetcher.

(** What the [try] block does, case by case on the answer of the world. *)
Lemma search_news_try_eq query w tr :
  search_news_try query w tr =
    (match w_get w tr query with
     | Raise e => Raise e
     | Ok response =>
       match resp_json response with
       | Raise e => Raise e
       | Ok (NotAnObject ty) =>
         Raise (Exn AttributeError
                  (py "'" ++ ty ++ py "' object has no attribute 'get'"))
       | Ok (Object status articles) =>
         if bool_decide (dict_get status PyNone = PyStr (py "ok")) then
           match dict_get articles (ArticlesList []) with
           | ArticlesNull =>
             Raise (Exn TypeError (py "'NoneType' object is not iterable"))
           | ArticlesList l => Ok (slice_to (filter has_title l) 6)
           end
         else Ok []
       end
     end, tr ++ [EvGet (base_url ++ py "/everything") query]).
Proof.
  unfold search_news_try, Eff.bind, session_get, Eff.lift.
  destruct (w_get w tr query) as [response|e]; [|done].
  destruct (resp_json response) as [[ty|status articles]|e]; [done| |done].
  case_bool_decide; [|done].
  by destruct (dict_get articles (ArticlesList [])).
Qed.

(** The title test of the filter, in words: the title is present, is a
    non-empty string, and is not the placeholder. *)
Lemma has_title_spec (a : article) :
  has_title a = true <->
  exists t, art_title a = Some (PyStr t) /\ t <> [] /\ t <> py "[Removed]".
Proof.
  unfold has_title. split.
  - destruct (art_title a) as [[|t]|]; [done| |done].
    destruct t as [|c t]; [done|]. simpl. case_bool_decide; [done|].
    intros _. exists (c :: t). split; [done|]. split; [done|]. congruence.
  - intros (t & -> & Hne & Hrm). destruct t as [|c t]; [done|]. simpl.
    case_bool_decide; [congruence|done].
Qed.

(** The request or the parse of its answer raised [e]. *)
Definition fetch_raises (w : world) (tr : list event) (query : pystr) (e : exn)
  : Prop :=
  w_get w tr query = Raise e \/
  exists r, w_get w tr query = Ok r /\ resp_json r = Raise e.

(** A title that is present, a non-empty string, and not the placeholder. *)
Definition usable_title (a : article) : Prop :=
  exists t, art_title a = Some (PyStr t) /\ t <> [] /\ t <> py "[Removed]".

(** C6: [search_news] always returns a list and never raises; when the
    request or the JSON parse raises, it logs the error and returns the
    empty list, after one request; when the status field of the answer is
    not ['ok'], it returns the empty list. *)
Theorem search_news_swallows_failures (query : pystr) (w : world) (tr : list event) :
  (exists l tr', search_news query w tr = (Ok l, tr')) /\
  (forall e, fetch_raises w tr query e ->
     search_news query w tr =
       (Ok [], tr ++ [EvGet (base_url ++ py "/everything") query;
                      EvLog ERROR (py "Error: " ++ exn_msg e)])) /\
  (forall r status articles,
     w_get w tr query = Ok r ->
     resp_json r = Ok (Object status articles) ->
     dict_get status PyNone <> PyStr (py "ok") ->
     search_news query w tr =
       (Ok [], tr ++ [EvGet (base_url ++ py "/everything") query])).
Proof.
  unfold search_news, Eff.try_except. rewrite search_news_try_eq.
  split; [|split].
  - destruct (w_get w tr query) as [r|e]; [|by eexists _, _].
    destruct (resp_json r) as [[ty|status articles]|e]; [by eexists _, _| |by eexists _, _].
    case_bool_decide; [|by eexists _, _].
    destruct (dict_get articles (ArticlesList [])); by eexists _, _.
  - intros e [->|(r & -> & ->)]; unfold Eff.bind, log, Eff.emit, Eff.ret;
      by rewrite <- app_assoc.
  - intros r status articles -> -> Hst. by case_bool_decide.
Qed.

Definition failing_world (e : exn) : world :=
  {| w_get := fun _ _ => Raise e;
     w_smtp := fun _ _ => None;
     w_now := fun _ => py "January 01, 2025" |}.

Lemma search_news_swallows_failures_witness :
  search_news (py "ISRO mission")
      (failing_world (Exn RequestException (py "timed out"))) [] =
    (Ok [], [EvGet (py "https://newsapi.org/v2/everything") (py "ISRO mission");
             EvLog ERROR (py "Error: timed out")]).
Proof.
  exact (proj1 (proj2 (search_news_swallows_failures (py "ISRO mission")
           (failing_world (Exn RequestException (py "timed out"))) []))
           (Exn RequestException (py "timed out")) (or_introl eq_refl)).
Defined.

(** C7: on an answer whose status is ['ok'] and whose articles are the list
    [l], [search_news] returns the first 6 of the articles of [l] that pass
    the title test, in the order of [l]; each has a title that is present,
    non-empty and not ['[Removed]']. *)
Theorem search_news_filters (query : pystr) (w : world) (tr : list event)
    (r : response) (status : option pyopt) (articles : option jarticles)
    (l : list article) :
  w_get w tr query = Ok r ->
  resp_json r = Ok (Object status articles) ->
  dict_get status PyNone = PyStr (py "ok") ->
  dict_get articles (ArticlesList []) = ArticlesList l ->
  exists res,
    search_news query w tr =
      (Ok res, tr ++ [EvGet (base_url ++ py "/everything") query]) /\
    res = take 6 (filter has_title l) /\
    (forall a, has_title a = true <-> usable_title a) /\
    (length res <= 6)%nat /\
    res `sublist_of` l /\
    Forall usable_title res.
Proof.
  intros Hget Hjson Hst Harts.
  exists (take 6 (filter has_title l)).
  split; [|split; [done|split; [apply has_title_spec|split; [|split]]]].
  - unfold search_news, Eff.try_except. rewrite search_news_try_eq.
    rewrite Hget, Hjson, Harts. by case_bool_decide.
  - rewrite length_take. lia.
  - etrans; [apply sublist_take|apply sublist_filter].
  - apply Forall_forall. intros a Ha. apply has_title_spec.
    apply subseteq_take in Ha. apply list_elem_of_filter in Ha as [Ha _].
    by apply Is_true_true.
Qed.

Definition mk_article (title url : string) : article :=
  {| art_title := Some (PyStr (py title));
     art_description := None;
     art_source := None;
     art_url := Some (PyStr (py url)) |}.

Definition sample_articles : list article :=
  [ mk_article "Budget day" "https://n.example/1";
    mk_article "[Removed]" "https://removed.com";
    mk_article "Rates held" "https://n.example/2";
    mk_article "" "https://n.example/3";
    mk_article "Monsoon arrives" "https://n.example/4";
    mk_article "Rates held" "https://n.example/2";
    mk_article "Launch window" "https://n.example/5";
    mk_article "Exam dates" "https://n.example/6";
    mk_article "Flood alert" "https://n.example/7";
    mk_article "New vaccine" "https://n.example/8" ].

(** A world whose API answers every query with the same articles. *)
Definition answering_world (l : list article) : world :=
  {| w_get := fun _ _ =>
       Ok (Response (Ok (Object (Some (PyStr (py "ok")))
                           (Some (ArticlesList l)))));
     w_smtp := fun _ _ => None;
     w_now := fun _ => py "January 01, 2025" |}.

Lemma search_news_filters_witness :
  exists res,
    search_news (py "India economy") (answering_world sample_articles) [] =
      (Ok res, [] ++ [EvGet (base_url ++ py "/everything") (py "India economy")]) /\
    res = take 6 (filter has_title sample_articles) /\
    (forall a, has_title a = true <-> usable_title a) /\
    (length res <= 6)%nat /\
    res `sublist_of` sample_articles /\
    Forall usable_title res.
Proof.
  apply (search_news_filters (py "India economy")
           (answering_world sample_articles) []
           (Response (Ok (Object (Some (PyStr (py "ok")))
                            (Some (ArticlesList sample_articles)))))
           (Some (PyStr (py "ok"))) (Some (ArticlesList sample_articles))
           sample_articles); reflexivity.
Defined.

Example search_news_sample :
  (search_news (py "India economy") (answering_world sample_articles) []).1 =
    Ok [ mk_article "Budget day" "https://n.example/1";
         mk_article "Rates held" "https://n.example/2";
         mk_article "Monsoon arrives" "https://n.example/4";
         mk_article "Rates held" "https://n.example/2";
         mk_article "Launch window" "https://n.example/5";
         mk_article "Exam dates" "https://n.example/6" ].
Proof. reflexivity. Qed.

End SearchNews.

(** * Properties of the deduplication loop *)

Section Dedup.

Import NewsAutomator.

Implicit Types (seen : gset pyopt) (arts : list article) (a : article) (u : pyopt).

(** The articles the loop appends when it starts with [seen] as
    [seen_urls]. *)
Fixpoint dedup_from seen arts : list article :=
  match arts with
  | [] => []
  | a :: arts' =>
    if negb (falsy (url_of a)) && negb (bool_decide (url_of a ∈ seen))
    then a :: dedup_from ({[url_of a]} ∪ seen) arts'
    else dedup_from seen arts'
  end.

Lemma foldl_dedup_step seen (unique : list article) arts :
  (foldl dedup_step (seen, unique) arts).2 = unique ++ dedup_from seen arts.
Proof.
  revert seen unique. induction arts as [|a arts IH]; intros seen unique; simpl.
  - by rewrite app_nil_r.
  - destruct (negb (falsy (url_of a)) && negb (bool_decide (url_of a ∈ seen))).
    + rewrite IH. by rewrite <- app_assoc.
    + apply IH.
Qed.

Lemma dedup_eq arts : dedup arts = dedup_from ∅ arts.
Proof. unfold dedup. by rewrite foldl_dedup_step. Qed.

Lemma dedup_from_sublist seen arts : dedup_from seen arts `sublist_of` arts.
Proof.
  revert seen. induction arts as [|a arts IH]; intros seen; simpl; [done|].
  destruct (_ && _); [apply sublist_skip|apply sublist_cons]; apply IH.
Qed.

Lemma dedup_from_elem seen arts a :
  a ∈ dedup_from seen arts -> falsy (url_of a) = false /\ url_of a ∉ seen.
Proof.
  revert seen. induction arts as [|b arts IH]; intros seen; simpl.
  - by intros ?%elem_of_nil.
  - destruct (falsy (url_of b)) eqn:Hb; simpl; [apply IH|].
    case_bool_decide as Hin; simpl; [apply IH|].
    intros [->|Ha]%elem_of_cons; [done|].
    apply IH in Ha as [? Hnot]. split; [done|]. set_solver.
Qed.

Lemma dedup_from_filter seen arts u :
  falsy u = false ->
  filter (fun a => url_of a = u) (dedup_from seen arts) =
    if decide (u ∈ seen) then []
    else take 1 (filter (fun a => url_of a = u) arts).
Proof.
  intros Hu. revert seen. induction arts as [|a arts IH]; intros seen; simpl.
  - by case_decide.
  - destruct (falsy (url_of a)) eqn:Ha; simpl.
    { rewrite IH. rewrite (filter_cons_False _ a); [done|]. congruence. }
    case_bool_decide as Hin; simpl.
    { rewrite IH. destruct (decide (url_of a = u)) as [<-|Hne].
      - by rewrite !decide_True.
      - by rewrite (filter_cons_False _ a). }
    destruct (decide (url_of a = u)) as [<-|Hne].
    + rewrite !filter_cons_True by done. rewrite IH.
      rewrite decide_True by set_solver. by rewrite decide_False.
    + rewrite !filter_cons_False by done. rewrite IH.
      destruct (decide (u ∈ seen)) as [Hs|Hs].
      * rewrite decide_True by set_solver. done.
      * rewrite decide_False by set_solver. done.
Qed.

Lemma dedup_from_skip seen (l1 l2 : list article) a :
  falsy (url_of a) = true ->
  dedup_from seen (l1 ++ a :: l2) = dedup_from seen (l1 ++ l2).
Proof.
  intros Ha. revert seen. induction l1 as [|b l1 IH]; intros seen; simpl.
  - by rewrite Ha.
  - by rewrite !IH.
Qed.

(** An article without a usable url: the key is missing, or its value is
    [null] or the empty string. *)
Lemma falsy_url_of a :
  falsy (url_of a) = true <->
  art_url a = None \/ art_url a = Some PyNone \/ art_url a = Some (PyStr []).
Proof.
  unfold url_of, dict_get. destruct (art_url a) as [[|[|c s]]|]; simpl;
    naive_solver.
Qed.

(** C3, as stated, fails for the empty url: an article whose url is empty
    (or missing) is not kept, although it is the first occurrence of its
    url value. *)
Lemma dedup_drops_empty_url :
  filter (fun a => url_of a = PyStr [])
         (dedup [mk_article "Budget day" ""; mk_article "Rates held" "https://n.example/2"])
  <> take 1 (filter (fun a => url_of a = PyStr [])
               [mk_article "Budget day" ""; mk_article "Rates held" "https://n.example/2"]).
Proof. vm_compute. discriminate. Qed.

(** C3, amended: the deduplicated list is a sublist of the fetched list
    (relative order is kept); for every non-empty url it holds exactly the
    first fetched article with that url; it holds no article whose url is
    missing, [null] or empty. *)
Theorem dedup_first_occurrences (all_articles : list article) :
  dedup all_articles `sublist_of` all_articles /\
  (forall u, falsy u = false ->
     filter (fun a => url_of a = u) (dedup all_articles) =
       take 1 (filter (fun a => url_of a = u) all_articles)) /\
  (forall u, falsy u = true ->
     filter (fun a => url_of a = u) (dedup all_articles) = []).
Proof.
  rewrite dedup_eq. split; [apply dedup_from_sublist|split].
  - intros u Hu. by rewrite dedup_from_filter.
  - intros u Hu.
    destruct (filter _ (dedup_from ∅ all_articles)) as [|a l] eqn:Hf; [done|].
    assert (Ha : a ∈ filter (fun a => url_of a = u) (dedup_from ∅ all_articles)).
    { rewrite Hf. by left. }
    apply list_elem_of_filter in Ha as [Heq Ha].
    apply dedup_from_elem in Ha as [Ha _]. congruence.
Qed.

Lemma dedup_first_occurrences_witness :
  filter (fun a => url_of a = PyStr (py "https://n.example/2"))
         (dedup sample_articles) =
    take 1 (filter (fun a => url_of a = PyStr (py "https://n.example/2"))
              sample_articles).
Proof.
  apply (proj1 (proj2 (dedup_first_occurrences sample_articles))).
  reflexivity.
Defined.

Example dedup_sample :
  dedup sample_articles =
    [ mk_article "Budget day" "https://n.example/1";
      mk_article "[Removed]" "https://removed.com";
      mk_article "Rates held" "https://n.example/2";
      mk_article "" "https://n.example/3";
      mk_article "Monsoon arrives" "https://n.example/4";
      mk_article "Launch window" "https://n.example/5";
      mk_article "Exam dates" "https://n.example/6";
      mk_article "Flood alert" "https://n.example/7";
      mk_article "New vaccine" "https://n.example/8" ].
Proof. vm_compute. reflexivity. Qed.

End Dedup.

(** * Properties of the digest builder *)

Section DigestBuilder.

Import NewsSummarizer NewsAutomator.

Lemma map_m_ok_inv {A B} (f : A -> M B) (l : list A) w tr ys tr' :
  Eff.map_m f l w tr = (Ok ys, tr') ->
  Forall2 (fun x y => exists tr1 tr2, f x w tr1 = (Ok y, tr2)) l ys.
Proof.
  revert tr ys. induction l as [|x l IH]; intros tr ys Hrun; simpl in Hrun.
  - injection Hrun as <- _. constructor.
  - apply bind_ok_inv in Hrun as (y & tr1 & Hx & Hrun).
    apply bind_ok_inv in Hrun as (ys' & tr2 & Hl & Hrun).
    injection Hrun as <- <-. constructor; [by exists tr, tr1|]. by eapply IH.
Qed.

(** What [create_summary] stores when it returns. *)
Lemma create_summary_ok a w tr s tr' :
  create_summary a w tr = (Ok s, tr') ->
  tr' = tr /\
  sum_url s = url_of a /\
  sum_summary s = clean_text (dict_get (art_description a) (PyStr [])) 150 /\
  sum_title s = slice_to (py_str (dict_get (art_title a) (PyStr (py "No Title")))) 100.
Proof.
  unfold create_summary.
  destruct (dict_get (art_title a) _) as [|title]; [done|].
  destruct (dict_get (art_source a) _) as [|name]; [done|].
  unfold Eff.bind, Eff.ret. simpl. by intros [= <- <-].
Qed.

(** [s] is the summary [create_summary] builds from [a]. *)
Definition summary_of (w : world) (a : article) (s : summary) : Prop :=
  exists tr1 tr2, create_summary a w tr1 = (Ok s, tr2).

Lemma fetch_category_ok (cat : pystr) (queries : list pystr) (nd : digest)
    w tr nd' tr' :
  fetch_category (cat, queries) nd w tr = (Ok nd', tr') ->
  exists all_articles summaries,
    nd' = <[cat := summaries]> nd /\
    Forall2 (summary_of w) (take 4 (dedup all_articles)) summaries.
Proof.
  unfold fetch_category. intros Hrun.
  apply bind_ok_inv in Hrun as (all_articles & tr1 & _ & Hrun).
  apply bind_ok_inv in Hrun as (summaries & tr2 & Hsum & Hrun).
  injection Hrun as <- _. exists all_articles, summaries. split; [done|].
  apply map_m_ok_inv in Hsum. by rewrite slice_to_nonneg in Hsum.
Qed.

(** Every list of a built digest is stored under a key of [TOPICS] and
    holds the summaries of the first four deduplicated articles of some
    fetched list. *)
Lemma fetch_all_news_lists (w : world) (tr : list event) (nd : digest)
    (tr' : list event) :
  fetch_all_news w tr = (Ok nd, tr') ->
  forall (cat : pystr) (l : list summary), nd !! cat = Some l ->
    cat ∈ TOPICS.*1 /\
    exists all_articles, Forall2 (summary_of w) (take 4 (dedup all_articles)) l.
Proof.
  unfold fetch_all_news.
  apply (for_each_inv
           (fun nd : digest => forall (cat : pystr) (l : list summary),
              nd !! cat = Some l ->
              cat ∈ TOPICS.*1 /\
              exists all_articles,
                Forall2 (summary_of w) (take 4 (dedup all_articles)) l)).
  - intros [cat queries] acc tr0 acc' tr0' Hin Hacc Hstep cat' l Hl.
    apply fetch_category_ok in Hstep as (all_articles & summaries & -> & Hsum).
    destruct (decide (cat = cat')) as [<-|Hne].
    + rewrite lookup_insert_eq in Hl. injection Hl as <-. split.
      * apply list_elem_of_fmap. by exists (cat, queries).
      * by exists all_articles.
    + rewrite lookup_insert_ne in Hl by done. by apply Hacc.
  - intros cat l Hl. by rewrite lookup_empty in Hl.
Qed.

(** C4: every list of a built digest has at most 4 summaries, however many
    distinct articles were fetched for its category. *)
Theorem digest_capped (w : world) (tr : list event) (nd : digest)
    (tr' : list event) (cat : pystr) (l : list summary) :
  fetch_all_news w tr = (Ok nd, tr') ->
  nd !! cat = Some l ->
  (length l <= 4)%nat.
Proof.
  intros Hrun Hl.
  destruct (fetch_all_news_lists _ _ _ _ Hrun _ _ Hl) as (_ & arts & Hsum).
  apply Forall2_length in Hsum. rewrite <- Hsum, length_take. lia.
Qed.

(** The digest built in a world where every query is answered with
    [sample_articles], which has nine distinct urls. *)
Definition sample_run : result digest * list event :=
  fetch_all_news (answering_world sample_articles) [].

Definition sample_digest : digest :=
  match sample_run.1 with
  | Ok nd => nd
  | Raise _ => ∅
  end.

Lemma digest_capped_witness :
  (length (EmailSender.articles_of sample_digest (py "technology")) <= 4)%nat.
Proof.
  apply (digest_capped (answering_world sample_articles) [] sample_digest
           sample_run.2 (py "technology")).
  - vm_compute. reflexivity.
  - vm_compute. reflexivity.
Defined.

Example sample_digest_technology :
  length (dedup (sample_articles ++ sample_articles)) = 9%nat /\
  length (EmailSender.articles_of sample_digest (py "technology")) = 4%nat.
Proof. split; vm_compute; reflexivity. Qed.

(** The url of every summary of a built digest is a non-empty string. *)
Lemma built_digest_urls (w : world) (tr : list event) (nd : digest)
    (tr' : list event) (cat : pystr) (l : list summary) (s : summary) :
  fetch_all_news w tr = (Ok nd, tr') ->
  nd !! cat = Some l ->
  s ∈ l ->
  exists u, sum_url s = PyStr u /\ u <> [].
Proof.
  intros Hrun Hl Hs.
  destruct (fetch_all_news_lists _ _ _ _ Hrun _ _ Hl) as (_ & arts & Hsum).
  apply list_elem_of_lookup in Hs as [i Hi].
  destruct (Forall2_lookup_r _ _ _ _ _ Hsum Hi) as (a & Ha & tr1 & tr2 & Hsa).
  apply create_summary_ok in Hsa as (_ & Hurl & _).
  apply list_elem_of_lookup_2, subseteq_take in Ha.
  rewrite dedup_eq in Ha. apply dedup_from_elem in Ha as [Hf _].
  rewrite Hurl. destruct (url_of a) as [|[|c u]]; [done|done|].
  by exists (c :: u).
Qed.

(** C10: an article whose url is missing, [null] or empty never enters the
    deduplicated list, whose content is the same as if the article had not
    been fetched; and every summary of a built digest has a url that is a
    non-empty string. *)
Theorem digest_urls_nonempty :
  (forall (l1 l2 : list article) (a : article),
     art_url a = None \/ art_url a = Some PyNone \/ art_url a = Some (PyStr []) ->
     (a ∉ dedup (l1 ++ a :: l2)) /\ dedup (l1 ++ a :: l2) = dedup (l1 ++ l2)) /\
  (forall (w : world) (tr : list event) (nd : digest) (tr' : list event)
          (cat : pystr) (l : list summary) (s : summary),
     fetch_all_news w tr = (Ok nd, tr') ->
     nd !! cat = Some l ->
     s ∈ l ->
     exists u, sum_url s = PyStr u /\ u <> []).
Proof.
  split.
  - intros l1 l2 a Ha%falsy_url_of. rewrite !dedup_eq. split.
    + intros [Hf _]%dedup_from_elem. congruence.
    + by apply dedup_from_skip.
  - intros w tr nd tr' cat l s. apply built_digest_urls.
Qed.

Lemma digest_urls_nonempty_witness :
  ((mk_article "Budget day" "" ∉
     dedup ([mk_article "Rates held" "https://n.example/2"]
            ++ mk_article "Budget day" "" :: [mk_article "Exam dates" "https://n.example/6"])) /\
   dedup ([mk_article "Rates held" "https://n.example/2"]
          ++ mk_article "Budget day" "" :: [mk_article "Exam dates" "https://n.example/6"]) =
   dedup ([mk_article "Rates held" "https://n.example/2"]
          ++ [mk_article "Exam dates" "https://n.example/6"])) /\
  (exists u,
     sum_url {| sum_title := py "Budget day";
                sum_summary := py "No details available";
                sum_source := PyStr (py "Unknown");
                sum_url := PyStr (py "https://n.example/1") |} = PyStr u /\
     u <> []).
Proof.
  split.
  - apply (proj1 digest_urls_nonempty). right. right. reflexivity.
  - apply (proj2 digest_urls_nonempty (answering_world sample_articles) []
             sample_digest sample_run.2 (py "technology")
             (EmailSender.articles_of sample_digest (py "technology"))).
    + vm_compute. reflexivity.
    + vm_compute. reflexivity.
    + vm_compute. left.
Defined.

End DigestBuilder.

(** String literals are compared as they are written, and evaluated only
    by [vm_compute]. *)
Opaque py tpl.

(** * Properties of [NewsAutomator.run] *)

Section Run.

Import NewsFetcher NewsSummarizer EmailSender NewsAutomator.

(** Events other than an SMTP session. *)
Definition not_smtp (ev : event) : Prop :=
  match ev with
  | EvSmtp _ _ _ => False
  | _ => True
  end.

Definition is_smtp (ev : event) : bool :=
  match ev with
  | EvSmtp _ _ _ => true
  | _ => false
  end.

Lemma log_emits lvl text : emits not_smtp (log lvl text).
Proof. by apply emits_emit. Qed.

Lemma sleep_emits millis : emits not_smtp (sleep millis).
Proof. by apply emits_emit. Qed.

Lemma search_news_emits query : emits not_smtp (search_news query).
Proof.
  apply emits_try_except.
  - intros w tr. rewrite search_news_try_eq. simpl. eexists. split; [done|].
    by repeat constructor.
  - intros e. apply emits_bind; [apply log_emits|]. intros _. apply emits_ret.
Qed.

Lemma create_summary_emits a : emits not_smtp (create_summary a).
Proof.
  unfold create_summary. apply emits_bind.
  - destruct (dict_get (art_title a) _); [apply emits_raise|apply emits_ret].
  - intros title. apply emits_bind; [|intros; apply emits_ret].
    destruct (dict_get (art_source a) _); [apply emits_raise|apply emits_ret].
Qed.

Lemma fetch_all_news_emits : emits not_smtp fetch_all_news.
Proof.
  apply emits_for_each. intros [cat queries] nd. unfold fetch_category.
  apply emits_bind.
  - apply emits_for_each. intros query all_articles.
    apply emits_bind; [apply search_news_emits|]. intros articles.
    apply emits_bind; [apply sleep_emits|]. intros _. apply emits_ret.
  - intros all_articles. apply emits_bind; [|intros; apply emits_ret].
    apply emits_map_m, create_summary_emits.
Qed.

Lemma sum_len_zero {A} (ls : list (list A)) :
  foldr (fun a acc => len a + acc) 0 ls = 0 <-> Forall (fun l => l = []) ls.
Proof.
  assert (Hpos : forall ls : list (list A),
             0 <= foldr (fun a acc => len a + acc) 0 ls).
  { intros ls'. induction ls' as [|l ls' IH]; simpl; unfold len in *; lia. }
  induction ls as [|l ls IH]; simpl.
  - split; [constructor|done].
  - specialize (Hpos ls). rewrite Forall_cons, <- IH.
    destruct l as [|x l]; unfold len in *.
    + split; [intros H; split; [done|simpl in H; lia]|intros [_ H]; simpl; lia].
    + split; [intros H; simpl length in H; lia|by intros [? _]].
Qed.

(** The total computed by [run] is zero exactly when every list of the
    digest is empty. *)
Lemma total_articles_zero (nd : digest) :
  total_articles nd = 0 <->
  forall (cat : pystr) (l : list summary), nd !! cat = Some l -> l = [].
Proof.
  unfold total_articles. rewrite sum_len_zero, Forall_fmap, Forall_forall.
  split.
  - intros H cat l Hl. by apply (H (cat, l)), elem_of_map_to_list.
  - intros H [cat l] Hl%elem_of_map_to_list. by apply (H cat).
Qed.

Lemma log_run lvl text w tr : log lvl text w tr = (Ok tt, tr ++ [EvLog lvl text]).
Proof. reflexivity. Qed.

Lemma now_strftime_run w tr : now_strftime w tr = (Ok (w_now w tr), tr).
Proof. reflexivity. Qed.

Definition start_message : pystr := py "🚀 Fetching and sending news...".
Definition no_news_message : pystr := py "⚠️ No news found".

(** C5: when the digest fetched by a run holds no article at all, the run
    returns [False], and between its start and its end it opens no SMTP
    session: [send] is not called.  What it appends to the trace ends with
    the warning. *)
Theorem run_without_news (cfg : email_config) (w : world) (tr : list event)
    (nd : digest) (tr1 : list event) :
  fetch_all_news w (tr ++ [EvLog INFO start_message]) = (Ok nd, tr1) ->
  (forall (cat : pystr) (l : list summary), nd !! cat = Some l -> l = []) ->
  exists new,
    run cfg w tr = (Ok false, tr ++ new) /\
    Forall not_smtp new /\
    last new = Some (EvLog WARNING no_news_message).
Proof.
  intros Hfetch Hempty%total_articles_zero.
  destruct (fetch_all_news_emits w (tr ++ [EvLog INFO start_message]))
    as (fetched & Htr1 & Hfetched).
  rewrite Hfetch in Htr1. simpl in Htr1. subst tr1.
  exists ([EvLog INFO start_message] ++ fetched ++ [EvLog WARNING no_news_message]).
  split; [|split].
  - unfold run.
    rewrite (bind_ok _ _ _ _ _ _ (log_run INFO start_message w tr)).
    rewrite (bind_ok _ _ _ _ _ _ (now_strftime_run w _)).
    rewrite (bind_ok _ _ _ _ _ _ Hfetch). cbv zeta. rewrite Hempty.
    change (0 =? 0) with true. cbv iota.
    rewrite (bind_ok _ _ _ _ _ _ (log_run WARNING no_news_message w _)).
    unfold Eff.ret. by rewrite <- !app_assoc.
  - apply Forall_app. split; [repeat constructor|].
    apply Forall_app. split; [exact Hfetched|repeat constructor].
  - by rewrite app_assoc, last_snoc.
Qed.

Definition sample_config : email_config :=
  {| smtp_server := py "smtp.gmail.com";
     smtp_port := 587;
     sender_email := py "bot@example.com";
     sender_password := py "secret";
     recipient_email := py "reader@example.com" |}.

(** A run in a world where every request times out. *)
Definition silent_world : world :=
  failing_world (Exn RequestException (py "timed out")).

Definition silent_fetch : result digest * list event :=
  fetch_all_news silent_world ([] ++ [EvLog INFO start_message]).

Definition silent_digest : digest :=
  match silent_fetch.1 with
  | Ok nd => nd
  | Raise _ => ∅
  end.

Lemma run_without_news_witness :
  exists new,
    run sample_config silent_world [] = (Ok false, [] ++ new) /\
    Forall not_smtp new /\
    last new = Some (EvLog WARNING no_news_message).
Proof.
  apply (run_without_news sample_config silent_world [] silent_digest
           silent_fetch.2).
  - vm_compute. reflexivity.
  - apply total_articles_zero. vm_compute. reflexivity.
Defined.

Example silent_digest_keys :
  (map_to_list silent_digest).*2 = [[]; []; []; []; []; []; []; []].
Proof. vm_compute. reflexivity. Qed.

(** With news, the same configuration opens exactly one SMTP session. *)
Example run_with_news_sends_once :
  let '(r, trace) := run sample_config (answering_world sample_articles) [] in
  r = Ok true /\
  length (filter is_smtp trace) = 1%nat.
Proof. vm_compute. split; reflexivity. Qed.

End Run.

(** * Properties of [EmailSender.create_email] *)

Section CreateEmail.

Import EmailSender.

Implicit Types (nd : digest) (entry : pystr * (pystr * pystr * pystr)).

(** A category with at least one article. *)
Definition populated nd entry : Prop := articles_of nd entry.1 <> [].

#[local] Instance populated_dec nd entry : Decision (populated nd entry).
Proof. unfold populated. apply _. Defined.

(** The categories that get a section: the entries of [cat_info] with at
    least one article, in the order of [cat_info]. *)
Definition shown nd : list (pystr * (pystr * pystr * pystr)) :=
  filter (populated nd) cat_info.

(** The HTML block of one category. *)
Definition html_section nd entry : pystr :=
  let '(cat_key, (emoji, name, _)) := entry in
  tpl "<div class=`category`><div class=`cat-header`><span class=`cat-icon`>"
  ++ emoji ++ tpl "</span><span class=`cat-title`>" ++ name
  ++ py "</span></div>"
  ++ mjoin (html_item <$> articles_of nd cat_key) ++ py "</div>".

(** The plain-text lines of one article whose url is a string. *)
Definition text_entry (numbered : Z * summary) : pystr :=
  let '(i, news) := numbered in
  str_of_int i ++ py ". " ++ sum_title news ++ nl
  ++ py "   📝 " ++ sum_summary news ++ nl
  ++ py "   🔗 " ++ slice_to (py_str (sum_url news)) 40 ++ py "..." ++ nl ++ nl.

(** The plain-text block of one category. *)
Definition text_section nd entry : pystr :=
  let '(cat_key, (emoji, name, _)) := entry in
  (emoji ++ py " " ++ name ++ nl) ++ repeat_str (py "─") 40 ++ nl
  ++ mjoin (text_entry <$> enumerate1 (articles_of nd cat_key)).

(** The number of articles of the categories of [cat_info]: [total]. *)
Definition rendered_total nd : Z :=
  foldr (fun entry acc => len (articles_of nd entry.1) + acc) 0 cat_info.

Definition html_foot nd : pystr :=
  py "<div class='stats'>📊 " ++ str_of_int (rendered_total nd)
  ++ py " stories from " ++ str_of_int (nonempty_categories nd)
  ++ py " categories</div></div></body></html>".

Definition text_head (date_str : pystr) : pystr :=
  py "📰 DAILY NEWS - " ++ date_str ++ nl ++ repeat_str (py "=") 50 ++ nl ++ nl.

Definition text_foot nd : pystr :=
  repeat_str (py "=") 50 ++ nl ++ py "🔄 Auto-generated | "
  ++ str_of_int (rendered_total nd) ++ py " stories".

(** Every url of the digest is a string (true of every built digest). *)
Definition urls_are_strings nd : Prop :=
  forall (cat : pystr) (l : list summary) (s : summary),
    nd !! cat = Some l -> s ∈ l -> sum_url s <> PyNone.

Lemma foldl_html_item (html : pystr) (articles : list summary) :
  foldl (fun html news => html ++ html_item news) html articles =
    html ++ mjoin (html_item <$> articles).
Proof.
  revert html. induction articles as [|news articles IH]; intros html; simpl.
  - by rewrite app_nil_r.
  - rewrite IH. by rewrite <- app_assoc.
Qed.

Lemma html_step_eq nd entry (total : Z) (html : pystr) :
  html_step nd entry (total, html) =
    if decide (populated nd entry)
    then (total + len (articles_of nd entry.1), html ++ html_section nd entry)
    else (total, html).
Proof.
  destruct entry as [cat_key [[emoji name] descr]].
  unfold html_step, html_section.
  destruct (decide _) as [Hp|Hp]; unfold populated in Hp; cbn [fst] in *.
  - destruct (articles_of nd cat_key) as [|news articles]; [done|].
    rewrite foldl_html_item. f_equal. by rewrite <- !app_assoc.
  - destruct (articles_of nd cat_key) as [|news articles]; [done|].
    by destruct Hp.
Qed.

Lemma foldl_html_step nd (entries : list (pystr * (pystr * pystr * pystr)))
    (total : Z) (html : pystr) :
  foldl (fun acc entry => html_step nd entry acc) (total, html) entries =
    (total + foldr (fun entry acc => len (articles_of nd entry.1) + acc) 0 entries,
     html ++ mjoin (html_section nd <$> filter (populated nd) entries)).
Proof.
  revert total html.
  induction entries as [|entry entries IH]; intros total html; simpl.
  - by rewrite Z.add_0_r, app_nil_r.
  - rewrite html_step_eq. rewrite filter_cons.
    destruct (decide (populated nd entry)) as [Hp|Hp].
    + rewrite IH. simpl. f_equal; [lia|by rewrite <- app_assoc].
    + rewrite IH. f_equal.
      assert (Hz : len (articles_of nd entry.1) = 0).
      { unfold populated in Hp. destruct (articles_of nd entry.1); [done|].
        by destruct Hp. }
      lia.
Qed.

Lemma text_item_ok (i : Z) (news : summary) w tr :
  sum_url news <> PyNone ->
  text_item i news w tr = (Ok (text_entry (i, news)), tr).
Proof.
  intros Hurl. unfold text_item, text_entry.
  by destruct (sum_url news) as [|url].
Qed.

Lemma text_items_ok (numbered : list (Z * summary)) (text : pystr) w tr :
  Forall (fun p => sum_url p.2 <> PyNone) numbered ->
  Eff.for_each numbered
    (fun '(i, news) text => do item <- text_item i news; Eff.ret (text ++ item))
    text w tr =
  (Ok (text ++ mjoin (text_entry <$> numbered)), tr).
Proof.
  intros Hurls. revert text.
  induction Hurls as [|[i news] numbered Hurl _ IH]; intros text; simpl.
  - by rewrite app_nil_r.
  - erewrite bind_ok.
    2:{ erewrite bind_ok by (by apply text_item_ok). reflexivity. }
    rewrite IH. by rewrite <- app_assoc.
Qed.

Lemma enumerate1_snd {A} (l : list A) : (enumerate1 l).*2 = l.
Proof.
  unfold enumerate1. rewrite fmap_imap. simpl.
  induction l as [|x l IH] using rev_ind; [done|].
  rewrite imap_app, IH. by rewrite imap_cons.
Qed.

Lemma articles_of_elem nd (cat : pystr) (s : summary) :
  s ∈ articles_of nd cat -> exists l, nd !! cat = Some l /\ s ∈ l.
Proof.
  unfold articles_of. destruct (nd !! cat) as [l|]; simpl.
  - by exists l.
  - by intros ?%elem_of_nil.
Qed.

Lemma text_step_eq nd entry (text : pystr) w tr :
  urls_are_strings nd ->
  text_step nd entry text w tr =
    (Ok (if decide (populated nd entry) then text ++ text_section nd entry
         else text), tr).
Proof.
  intros Hurls. destruct entry as [cat_key [[emoji name] descr]].
  unfold text_step, text_section.
  destruct (decide _) as [Hp|Hp]; unfold populated in Hp; cbn [fst] in *.
  - destruct (articles_of nd cat_key) as [|news articles] eqn:Harts; [done|].
    rewrite text_items_ok.
    + by rewrite <- !app_assoc.
    + apply Forall_forall. intros [i s] Hin. cbn [snd].
      assert (Hs : s ∈ articles_of nd cat_key).
      { rewrite Harts, <- (enumerate1_snd (news :: articles)).
        apply list_elem_of_fmap. by exists (i, s). }
      apply articles_of_elem in Hs as (l & Hl & Hs). by eapply Hurls.
  - destruct (articles_of nd cat_key) as [|news articles]; [done|].
    by destruct Hp.
Qed.

Lemma text_steps_eq nd (entries : list (pystr * (pystr * pystr * pystr)))
    (text : pystr) w tr :
  urls_are_strings nd ->
  Eff.for_each entries (text_step nd) text w tr =
    (Ok (text ++ mjoin (text_section nd <$> filter (populated nd) entries)), tr).
Proof.
  intros Hurls. revert text.
  induction entries as [|entry entries IH]; intros text; simpl.
  - by rewrite app_nil_r.
  - erewrite bind_ok by (by apply text_step_eq). rewrite IH, filter_cons.
    destruct (decide (populated nd entry)); [|done].
    simpl. by rewrite <- app_assoc.
Qed.

(** The renderer reads the digest through [articles_of] only. *)
Lemma articles_of_insert_nil nd (cat k : pystr) :
  articles_of (<[cat := []]> nd) k = articles_of (delete cat nd) k.
Proof.
  unfold articles_of. destruct (decide (cat = k)) as [->|Hne].
  - by rewrite lookup_insert_eq, lookup_delete_eq.
  - by rewrite lookup_insert_ne, lookup_delete_ne.
Qed.

Lemma html_steps_ext nd nd' (entries : list (pystr * (pystr * pystr * pystr)))
    (acc : Z * pystr) :
  (forall k, articles_of nd k = articles_of nd' k) ->
  foldl (fun acc entry => html_step nd entry acc) acc entries =
  foldl (fun acc entry => html_step nd' entry acc) acc entries.
Proof.
  intros Hext. revert acc.
  induction entries as [|entry entries IH]; intros acc; simpl; [done|].
  rewrite IH. f_equal.
  destruct entry as [cat_key [[emoji name] descr]], acc as [total html].
  unfold html_step. by rewrite Hext.
Qed.

Lemma text_steps_ext nd nd' (entries : list (pystr * (pystr * pystr * pystr)))
    (text : pystr) w tr :
  (forall k, articles_of nd k = articles_of nd' k) ->
  Eff.for_each entries (text_step nd) text w tr =
  Eff.for_each entries (text_step nd') text w tr.
Proof.
  intros Hext. revert text tr.
  induction entries as [|entry entries IH]; intros text tr; simpl; [done|].
  assert (Hstep : text_step nd entry text = text_step nd' entry text).
  { destruct entry as [cat_key [[emoji name] descr]].
    unfold text_step. by rewrite Hext. }
  unfold Eff.bind. rewrite Hstep.
  destruct (text_step nd' entry text w tr) as [[text'|e] tr1]; [apply IH|done].
Qed.

Lemma nonempty_categories_insert_nil nd (cat : pystr) :
  nonempty_categories (<[cat := []]> nd) = nonempty_categories (delete cat nd).
Proof.
  unfold nonempty_categories, len. f_equal.
  rewrite <- insert_delete_eq.
  rewrite map_to_list_insert by apply lookup_delete_eq.
  rewrite filter_cons_False; [done|]. simpl. tauto.
Qed.

(** A category stored with an empty list is rendered as if it were not in
    the digest. *)
Lemma create_email_insert_nil nd (cat date_str : pystr) w tr :
  create_email (<[cat := []]> nd) date_str w tr =
  create_email (delete cat nd) date_str w tr.
Proof.
  unfold create_email.
  rewrite (html_steps_ext _ (delete cat nd))
    by (intros; apply articles_of_insert_nil).
  rewrite nonempty_categories_insert_nil.
  destruct (foldl _ _ cat_info) as [total html].
  unfold Eff.bind.
  by rewrite (text_steps_ext _ (delete cat nd))
    by (intros; apply articles_of_insert_nil).
Qed.

(** C8: the plain text and the HTML are a head, one section for each entry
    of [shown nd] in that order, and a foot; [shown nd] lists, in the order
    of [cat_info], exactly the categories of [cat_info] that have at least
    one article.  The same list serves both outputs, and a category with no
    article has no section in either: storing a category with an empty list
    gives the outputs of the digest without that category. *)
Theorem create_email_sections nd (date_str : pystr) (w : world)
    (tr : list event) :
  urls_are_strings nd ->
  create_email nd date_str w tr =
    (Ok (text_head date_str ++ mjoin (text_section nd <$> shown nd)
         ++ text_foot nd,
         html_head date_str ++ mjoin (html_section nd <$> shown nd)
         ++ html_foot nd), tr) /\
  shown nd `sublist_of` cat_info /\
  (forall entry,
     entry ∈ shown nd <-> entry ∈ cat_info /\ articles_of nd entry.1 <> []) /\
  (forall cat : pystr,
     create_email (<[cat := []]> nd) date_str w tr =
     create_email (delete cat nd) date_str w tr).
Proof.
  intros Hurls. split; [|split; [|split]]; [| | |intros; apply create_email_insert_nil].
  - unfold create_email. rewrite foldl_html_step.
    erewrite bind_ok by (by apply text_steps_eq).
    unfold Eff.ret, text_head, text_foot, html_foot, shown, rendered_total.
    rewrite Z.add_0_l. by rewrite <- !app_assoc.
  - apply sublist_filter.
  - intros entry. unfold shown. rewrite list_elem_of_filter.
    unfold populated. tauto.
Qed.

Lemma sample_digest_urls : urls_are_strings sample_digest.
Proof.
  intros cat l s Hl Hs.
  destruct (built_digest_urls (answering_world sample_articles) []
              sample_digest sample_run.2 cat l s) as (u & -> & _);
    [vm_compute; reflexivity|done|done|done].
Qed.

Example sample_digest_shown :
  (shown sample_digest).*1 =
    [py "national"; py "international"; py "economy"; py "science";
     py "education"; py "environment"; py "technology"; py "health"].
Proof. vm_compute. reflexivity. Qed.

(** A digest with two populated categories, stored out of order, and an
    empty one. *)
Definition small_digest : digest :=
  <[py "health" :=
      [ {| sum_title := py "New vaccine";
           sum_summary := py "Trials begin";
           sum_source := PyStr (py "Wire");
           sum_url := PyStr (py "https://n.example/8") |} ]]>
  (<[py "science" := []]>
  (<[py "national" :=
      [ {| sum_title := py "Budget day";
           sum_summary := py "No details available";
           sum_source := PyNone;
           sum_url := PyStr (py "https://n.example/1") |} ]]> ∅)).

Lemma small_digest_urls : urls_are_strings small_digest.
Proof.
  intros cat l s Hl Hs. unfold small_digest in Hl.
  repeat (apply lookup_insert_Some in Hl as [[_ <-]|[_ Hl]];
          [apply list_elem_of_In in Hs; simpl in Hs;
           intuition (subst; discriminate)|]).
  by rewrite lookup_empty in Hl.
Qed.

Lemma create_email_sections_witness :
  create_email small_digest (py "January 01, 2025") silent_world [] =
    (Ok (text_head (py "January 01, 2025")
         ++ mjoin (text_section small_digest <$> shown small_digest)
         ++ text_foot small_digest,
         html_head (py "January 01, 2025")
         ++ mjoin (html_section small_digest <$> shown small_digest)
         ++ html_foot small_digest), []) /\
  shown small_digest `sublist_of` cat_info /\
  (forall entry,
     entry ∈ shown small_digest <->
     entry ∈ cat_info /\ articles_of small_digest entry.1 <> []) /\
  (forall cat : pystr,
     create_email (<[cat := []]> small_digest) (py "January 01, 2025")
       silent_world [] =
     create_email (delete cat small_digest) (py "January 01, 2025")
       silent_world []).
Proof.
  apply (create_email_sections small_digest (py "January 01, 2025")
           silent_world []).
  exact small_digest_urls.
Defined.

Example small_digest_shown :
  (shown small_digest).*1 = [py "national"; py "health"].
Proof. vm_compute. reflexivity. Qed.

Example small_digest_text :
  (create_email small_digest (py "January 01, 2025") silent_world []).1 =
  Ok (py "📰 DAILY NEWS - January 01, 2025
==================================================

📰 NATIONAL (INDIA)
────────────────────────────────────────
1. Budget day
   📝 No details available
   🔗 https://n.example/1...

🏥 HEALTH
────────────────────────────────────────
1. New vaccine
   📝 Trials begin
   🔗 https://n.example/8...

==================================================
🔄 Auto-generated | 2 stories",
      html_head (py "January 01, 2025")
      ++ html_section small_digest
           (py "national",
            (py "📰", py "NATIONAL (INDIA)", py "Govt schemes, laws, policies"))
      ++ html_section small_digest
           (py "health", (py "🏥", py "HEALTH", py "Medical, wellness"))
      ++ py "<div class='stats'>📊 2 stories from 2 categories</div></div></body></html>").
Proof. vm_compute. reflexivity. Qed.

(** A summary whose url is [None] makes the text loop raise. *)
Example create_email_raises :
  (create_email
     {[ py "health" :=
          [ {| sum_title := py "New vaccine"; sum_summary := py "Trials begin";
               sum_source := PyStr (py "Wire"); sum_url := PyNone |} ] ]}
     (py "January 01, 2025") silent_world []).1 =
  Raise (Exn TypeError (py "'NoneType' object is not subscriptable")).
Proof. vm_compute. reflexivity. Qed.

End CreateEmail.

(** * The category keys of the builder and of the renderer *)

Section CategoryKeys.

Import EmailSender NewsAutomator.

Lemma topics_keys :
  TOPICS.*1 =
    [py "national"; py "international"; py "economy"; py "technology";
     py "science"; py "health"; py "education"; py "environment"].
Proof. reflexivity. Qed.

Lemma cat_info_keys :
  cat_info.*1 =
    [py "national"; py "international"; py "economy"; py "science";
     py "education"; py "environment"; py "technology"; py "health"].
Proof. reflexivity. Qed.

(** The two tables have the same keys. *)
Lemma keys_agree (k : pystr) : k ∈ TOPICS.*1 <-> k ∈ cat_info.*1.
Proof.
  assert (H1 : Forall (fun k => k ∈ cat_info.*1) TOPICS.*1).
  { apply (bool_decide_unpack _). vm_compute. exact I. }
  assert (H2 : Forall (fun k => k ∈ TOPICS.*1) cat_info.*1).
  { apply (bool_decide_unpack _). vm_compute. exact I. }
  rewrite Forall_forall in H1, H2. split; [apply H1|apply H2].
Qed.

Lemma cat_info_keys_NoDup : NoDup cat_info.*1.
Proof. apply (bool_decide_unpack _). vm_compute. exact I. Qed.

Lemma sum_len_perm {A} (ls ls' : list (list A)) :
  ls ≡ₚ ls' ->
  foldr (fun a acc => len a + acc) 0 ls = foldr (fun a acc => len a + acc) 0 ls'.
Proof. induction 1; simpl; lia. Qed.

Lemma total_articles_insert (nd : digest) (cat : pystr) (l : list summary) :
  nd !! cat = None ->
  total_articles (<[cat := l]> nd) = len l + total_articles nd.
Proof.
  intros Hnone. unfold total_articles.
  rewrite (sum_len_perm _ (l :: (map_to_list nd).*2)); [done|].
  by rewrite map_to_list_insert.
Qed.

(** The sum of [len(news_data.get(k, []))] over a list of keys. *)
Definition sum_over (nd : digest) (keys : list pystr) : Z :=
  foldr (fun k acc => len (articles_of nd k) + acc) 0 keys.

Lemma sum_over_insert (nd : digest) (cat : pystr) (l : list summary)
    (keys : list pystr) :
  nd !! cat = None -> NoDup keys ->
  sum_over (<[cat := l]> nd) keys =
    (if decide (cat ∈ keys) then len l else 0) + sum_over nd keys.
Proof.
  intros Hnone. induction 1 as [|k keys Hk Hnd IH].
  - by rewrite decide_False by apply not_elem_of_nil.
  - unfold sum_over in *. cbn [foldr]. rewrite IH.
    assert (Hlen : len (articles_of (<[cat := l]> nd) k) =
                   (if decide (cat = k) then len l else 0)
                   + len (articles_of nd k)).
    { unfold articles_of. destruct (decide (cat = k)) as [->|Hne].
      - rewrite lookup_insert_eq, Hnone. unfold len. simpl. lia.
      - by rewrite lookup_insert_ne. }
    rewrite Hlen. destruct (decide (cat = k)) as [->|Hne].
    + rewrite (decide_True (P := k ∈ k :: keys)) by left.
      rewrite (decide_False (P := k ∈ keys)) by done. lia.
    + destruct (decide (cat ∈ keys)) as [Hin|Hin].
      * rewrite (decide_True (P := cat ∈ k :: keys)) by (by right). lia.
      * rewrite (decide_False (P := cat ∈ k :: keys)); [lia|].
        by intros [?|?]%elem_of_cons.
Qed.

Lemma sum_over_total (keys : list pystr) (nd : digest) :
  NoDup keys ->
  (forall k, is_Some (nd !! k) -> k ∈ keys) ->
  sum_over nd keys = total_articles nd.
Proof.
  intros Hnd. induction nd as [|cat l nd Hnone IH] using map_ind; intros Hdom.
  - unfold total_articles. rewrite map_to_list_empty. simpl.
    clear. induction keys as [|k keys IH]; [done|]. simpl. rewrite IH.
    unfold articles_of. by rewrite lookup_empty.
  - rewrite sum_over_insert, total_articles_insert by done.
    rewrite decide_True.
    + rewrite IH; [done|]. intros k Hk. apply Hdom.
      rewrite lookup_insert_ne; [done|]. intros ->. rewrite Hnone in Hk.
      by destruct Hk.
    + apply Hdom. by rewrite lookup_insert_eq.
Qed.

Lemma rendered_total_sum_over (nd : digest) :
  rendered_total nd = sum_over nd cat_info.*1.
Proof.
  unfold rendered_total, sum_over. by induction cat_info as [|e l IH]; simpl; [|rewrite IH].
Qed.

(** C9, as stated, fails: no key of [TOPICS] is missing from [cat_info] and
    no key of [cat_info] is missing from [TOPICS]. *)
Lemma category_keys_not_different :
  ~ ((exists k, k ∈ TOPICS.*1 /\ k ∉ cat_info.*1) \/
     (exists k, k ∈ cat_info.*1 /\ k ∉ TOPICS.*1)).
Proof.
  intros [(k & Hin & Hout)|(k & Hin & Hout)]; apply Hout; by apply keys_agree.
Qed.

(** C9, amended: [TOPICS] and [cat_info] have the same eight keys, in a
    different order; so every populated category of a built digest gets a
    section, and the total the renderer reports is the total [run] counts:
    no fetched category is dropped. *)
Theorem category_keys_shared :
  (forall k : pystr, k ∈ TOPICS.*1 <-> k ∈ cat_info.*1) /\
  length TOPICS = 8%nat /\ length cat_info = 8%nat /\
  TOPICS.*1 <> cat_info.*1 /\
  (forall (w : world) (tr : list event) (nd : digest) (tr' : list event),
     fetch_all_news w tr = (Ok nd, tr') ->
     (forall (cat : pystr) (l : list summary),
        nd !! cat = Some l -> l <> [] ->
        exists entry, entry ∈ shown nd /\ entry.1 = cat) /\
     rendered_total nd = total_articles nd).
Proof.
  split; [apply keys_agree|]. split; [done|]. split; [done|].
  split; [by vm_compute|].
  intros w tr nd tr' Hrun.
  assert (Hdom : forall k, is_Some (nd !! k) -> k ∈ cat_info.*1).
  { intros k [l Hl]. apply keys_agree.
    by destruct (fetch_all_news_lists _ _ _ _ Hrun _ _ Hl). }
  split.
  - intros cat l Hl Hne.
    assert (Hin : cat ∈ cat_info.*1) by (apply Hdom; by exists l).
    apply list_elem_of_fmap in Hin as (entry & -> & Hin).
    exists entry. split; [|done]. apply list_elem_of_filter. split; [|done].
    unfold populated, articles_of. by rewrite Hl.
  - rewrite rendered_total_sum_over.
    apply sum_over_total; [apply cat_info_keys_NoDup|done].
Qed.

Lemma category_keys_shared_witness :
  (exists entry, entry ∈ shown sample_digest /\ entry.1 = py "economy") /\
  rendered_total sample_digest = total_articles sample_digest.
Proof.
  destruct (proj2 (proj2 (proj2 (proj2 category_keys_shared)))
              (answering_world sample_articles) [] sample_digest sample_run.2)
    as [Hshown Htotal].
  - vm_compute. reflexivity.
  - split; [|exact Htotal].
    apply (Hshown (py "economy") (articles_of sample_digest (py "economy"))).
    + vm_compute. reflexivity.
    + vm_compute. discriminate.
Defined.

Example sample_digest_totals :
  rendered_total sample_digest = 32 /\ total_articles sample_digest = 32.
Proof. split; vm_compute; reflexivity. Qed.

End CategoryKeys.

(** * Further properties of [NewsSummarizer.clean_text] *)

Section CleanTextMore.

Import NewsSummarizer.

Lemma rsplit1_first_len (s : pystr) : len (first (rsplit1 space s)) <= len s.
Proof.
  destruct (rsplit1_spec space s) as [[_ ->]|(h & t & -> & _ & ->)];
    unfold first; cbn [hd]; [lia|].
  rewrite len_app. unfold len. lia.
Qed.

Lemma len_slice_to (s : pystr) (n : Z) : 0 <= n -> len (slice_to s n) <= n.
Proof.
  intros Hn. rewrite slice_to_nonneg by done. unfold len.
  rewrite length_take. lia.
Qed.

Lemma clean_text_len_cases (text : pyopt) (max_len : Z) :
  0 <= max_len ->
  clean_text text max_len = no_details \/
  len (clean_text text max_len) <= max_len + len ellipsis.
Proof.
  intros Hmax. unfold clean_text. destruct (falsy text); [by left|right].
  pose proof (len_slice_to (join [space] (split (py_str text))) max_len Hmax).
  destruct (Z.ltb_spec (len (slice_to (join [space] (split (py_str text))) max_len))
              max_len) as [Hlt|Hge].
  - unfold len in *. lia.
  - rewrite len_app.
    pose proof (rsplit1_first_len
                  (slice_to (join [space] (split (py_str text))) max_len)).
    lia.
Qed.

(** X1: the result is never longer than [max_len] plus the marker, unless it is
    the default text. *)
Theorem clean_text_length (text : pyopt) (max_len : Z) :
  0 <= max_len ->
  len (clean_text text max_len) <= Z.max (len no_details) (max_len + len ellipsis).
Proof.
  intros Hmax.
  destruct (clean_text_len_cases text max_len Hmax) as [->|Hle]; lia.
Qed.

Lemma clean_text_length_witness :
  len (clean_text (PyStr (py "Thunderstorms ahead")) 7)
  <= Z.max (len no_details) (7 + len ellipsis).
Proof. apply (clean_text_length (PyStr (py "Thunderstorms ahead")) 7). lia. Defined.

Lemma join_snoc (ws : list pystr) (w : pystr) :
  ws <> [] -> join [space] (ws ++ [w]) = join [space] ws ++ space :: w.
Proof.
  induction ws as [|w1 ws IH]; [done|]. intros _.
  destruct ws as [|w2 ws]; [done|].
  change ((w1 :: w2 :: ws) ++ [w]) with (w1 :: ((w2 :: ws) ++ [w])).
  rewrite join_cons by done. rewrite IH by done.
  rewrite (join_cons _ w1 (w2 :: ws)) by done. by rewrite <- !app_assoc.
Qed.

Lemma split_nonempty (s : pystr) : split s <> [] -> s <> [].
Proof. by intros H ->. Qed.

(** X2: a text that fits exactly is cut all the same: when the collapsed form
    has exactly [max_len] characters, the last word is dropped and the
    marker appended; a single word of [max_len] characters keeps the word
    and still gets the marker. *)
Theorem clean_text_exact_fit (s : pystr) (max_len : Z) (ws : list pystr)
    (w : pystr) :
  split s = ws ++ [w] ->
  len (collapse s) = max_len ->
  clean_text (PyStr s) max_len =
    (match ws with
     | [] => w
     | _ => join [space] ws
     end) ++ ellipsis.
Proof.
  intros Hsplit Hlen.
  assert (Hs : s <> []).
  { apply split_nonempty. rewrite Hsplit. by destruct ws. }
  assert (Hw : space ∉ w).
  { apply no_space_not_elem.
    pose proof (split_words s) as Hall. rewrite Hsplit in Hall.
    apply Forall_app in Hall as [_ Hall]. by inversion Hall as [|? ? [_ ?]]. }
  rewrite clean_text_unfold by done. cbv zeta.
  assert (Hmax : 0 <= max_len) by (unfold len in Hlen; lia).
  rewrite slice_to_nonneg by done.
  rewrite take_ge by (unfold len in Hlen; lia).
  rewrite Hlen, Z.ltb_irrefl. f_equal.
  unfold collapse. rewrite Hsplit. destruct ws as [|w1 ws].
  - cbn [app join]. by rewrite rsplit1_no_sep.
  - rewrite join_snoc by done. by rewrite rsplit1_last.
Qed.

Lemma clean_text_exact_fit_witness :
  clean_text (PyStr (py "Rain and wind")) 13 =
    join [space] [py "Rain"; py "and"] ++ ellipsis.
Proof.
  apply (clean_text_exact_fit (py "Rain and wind") 13
           [py "Rain"; py "and"] (py "wind")).
  - vm_compute. reflexivity.
  - vm_compute. reflexivity.
Defined.

Example clean_text_exact_fit_value :
  clean_text (PyStr (py "Rain and wind")) 13 = py "Rain and..." /\
  clean_text (PyStr (py "Rain")) 4 = py "Rain...".
Proof. split; vm_compute; reflexivity. Qed.

Lemma split_go_blank (s : pystr) :
  Forall (fun c => is_space c = true) s -> split_go [] s = [].
Proof. induction 1 as [|c s Hc _ IH]; [done|]. simpl. by rewrite Hc. Qed.

(** X3: only [None] and the empty string give the default text: a non-empty
    text made of whitespace alone gives the empty summary. *)
Theorem clean_text_blank (s : pystr) (max_len : Z) :
  s <> [] ->
  Forall (fun c => is_space c = true) s ->
  0 < max_len ->
  clean_text (PyStr s) max_len = [] /\
  clean_text (PyStr []) max_len = no_details /\
  clean_text PyNone max_len = no_details.
Proof.
  intros Hs Hblank Hmax. split; [|done].
  rewrite clean_text_unfold by done. cbv zeta.
  unfold collapse, split. rewrite split_go_blank by done. cbn [join].
  rewrite slice_to_nonneg by lia. rewrite take_nil.
  change (len (@nil N)) with 0. by rewrite (proj2 (Z.ltb_lt _ _) Hmax).
Qed.

Lemma clean_text_blank_witness :
  clean_text (PyStr (py "
  ")) 150 = [] /\
  clean_text (PyStr []) 150 = no_details /\
  clean_text PyNone 150 = no_details.
Proof.
  apply (clean_text_blank (py "
  ") 150).
  - vm_compute. discriminate.
  - vm_compute. repeat constructor.
  - lia.
Defined.

End CleanTextMore.

(** * The result of [clean_text] is normalised *)

Section CleanTextNormalised.

Import NewsSummarizer.

Lemma collapse_join (ws : list pystr) :
  Forall is_word ws -> collapse (join [space] ws) = join [space] ws.
Proof. intros Hws. unfold collapse. by rewrite split_join. Qed.

Lemma join_chars (ws : list pystr) :
  Forall is_word ws ->
  Forall (fun c => c = space \/ is_space c = false) (join [space] ws).
Proof.
  induction 1 as [|w ws [_ Hw] Hws IH]; [constructor|].
  assert (Hchars : Forall (fun c => c = space \/ is_space c = false) w).
  { eapply Forall_impl; [exact Hw|]. intros c Hc. by right. }
  destruct ws as [|w' ws]; [done|]. rewrite join_cons by done.
  apply Forall_app. split; [done|]. apply Forall_app. split; [|done].
  constructor; [by left|constructor].
Qed.

Lemma ellipsis_no_space : no_space ellipsis.
Proof. vm_compute. repeat constructor. Qed.

Lemma ellipsis_nonempty : ellipsis <> [].
Proof. vm_compute. discriminate. Qed.

Lemma word_marker (w : pystr) : no_space w -> is_word (w ++ ellipsis).
Proof.
  intros Hw. split.
  - intros [_ H]%app_eq_nil. by apply ellipsis_nonempty.
  - apply Forall_app. split; [done|apply ellipsis_no_space].
Qed.

Lemma join_snoc_marker (ws : list pystr) (w t : pystr) :
  join [space] (ws ++ [w]) ++ t = join [space] (ws ++ [w ++ t]).
Proof.
  destruct ws as [|w1 ws]; [done|].
  rewrite !join_snoc by done. by rewrite <- app_assoc.
Qed.

Lemma collapse_words_marker (ws : list pystr) :
  Forall is_word ws -> ws <> [] ->
  collapse (join [space] ws ++ ellipsis) = join [space] ws ++ ellipsis.
Proof.
  intros Hws Hne. destruct ws as [|w ws _] using rev_ind; [done|].
  apply Forall_app in Hws as [Hws Hw]. inversion Hw as [|? ? [_ Hw'] _]; subst.
  rewrite join_snoc_marker. apply collapse_join.
  apply Forall_app. split; [done|]. constructor; [|constructor].
  by apply word_marker.
Qed.

Lemma collapse_no_details : collapse no_details = no_details.
Proof. vm_compute. reflexivity. Qed.

(** X4: whatever the text, the result has no whitespace but single spaces
    between words: collapsing it again gives it back. *)
Theorem clean_text_normalised (text : pyopt) (max_len : Z) :
  0 <= max_len ->
  collapse (clean_text text max_len) = clean_text text max_len.
Proof.
  intros Hmax. unfold clean_text.
  destruct (falsy text); [apply collapse_no_details|].
  fold (collapse (py_str text)).
  pose proof (split_words (py_str text)) as Hws.
  rewrite slice_to_nonneg by done.
  set (n := Z.to_nat max_len).
  destruct (Z.ltb_spec (len (take n (collapse (py_str text)))) max_len)
    as [Hlt|Hge].
  - rewrite take_ge.
    + by apply collapse_join.
    + unfold len in Hlt. rewrite length_take in Hlt. lia.
  - destruct (rsplit1_spec space (take n (collapse (py_str text))))
      as [[Hno ->]|(h & t & Hcut & Ht & ->)]; unfold first; cbn [hd].
    + assert (Hword : no_space (take n (collapse (py_str text)))).
      { apply Forall_forall. intros c Hc.
        pose proof (join_chars _ Hws) as Hchars.
        rewrite Forall_forall in Hchars.
        destruct (Hchars c) as [->|Hc']; [by eapply subseteq_take| |done].
        by destruct Hno. }
      change (take n (collapse (py_str text)) ++ ellipsis)
        with (join [space] [take n (collapse (py_str text)) ++ ellipsis]).
      apply collapse_join. constructor; [|constructor]. by apply word_marker.
    + assert (Hc : collapse (py_str text) =
                   h ++ space :: (t ++ drop n (collapse (py_str text)))).
      { rewrite <- (take_drop n (collapse (py_str text))) at 1.
        rewrite Hcut. by rewrite <- app_assoc. }
      apply join_space_inv in Hc as (k & Hk & -> & _).
      * apply collapse_words_marker.
        -- by apply Forall_take.
        -- destruct k; [lia|].
           destruct (split (py_str text)); [cbn [length] in Hk; lia|done].
      * eapply Forall_impl; [exact Hws|]. by intros w [_ Hw].
Qed.

Lemma clean_text_normalised_witness :
  collapse (clean_text (PyStr (py "A  storm   hits the coast")) 12) =
    clean_text (PyStr (py "A  storm   hits the coast")) 12.
Proof.
  apply (clean_text_normalised (PyStr (py "A  storm   hits the coast")) 12).
  lia.
Defined.

End CleanTextNormalised.

(** * Further properties of [NewsSummarizer.create_summary] *)

Section CreateSummaryMore.

Import NewsSummarizer NewsAutomator.

Lemma len_no_details : len no_details = 20.
Proof. vm_compute. reflexivity. Qed.

Lemma len_ellipsis : len ellipsis = 3.
Proof. vm_compute. reflexivity. Qed.

(** X5: every summary [create_summary] returns has a title of at most 100
    characters and a text of at most 153 characters (150 and the marker);
    building it leaves the trace as it is. *)
Theorem create_summary_bounds (a : article) (w : world) (tr : list event)
    (s : summary) (tr' : list event) :
  create_summary a w tr = (Ok s, tr') ->
  tr' = tr /\ len (sum_title s) <= 100 /\ len (sum_summary s) <= 153.
Proof.
  intros (-> & _ & -> & ->)%create_summary_ok. split; [done|]. split.
  - by apply len_slice_to.
  - destruct (clean_text_len_cases (dict_get (art_description a) (PyStr [])) 150)
      as [->|Hle]; [lia|rewrite len_no_details; lia|].
    rewrite len_ellipsis in Hle. lia.
Qed.

(** An article whose description is one unbroken run of 200 characters. *)
Definition long_word_article : article :=
  {| art_title := Some (PyStr (repeat_str (py "T") 120));
     art_description := Some (PyStr (repeat_str (py "x") 200));
     art_source := Some (SourceObj (Some (PyStr (py "Wire"))));
     art_url := Some (PyStr (py "https://n.example/9")) |}.

Definition long_word_summary : summary :=
  {| sum_title := repeat_str (py "T") 100;
     sum_summary := repeat_str (py "x") 150 ++ ellipsis;
     sum_source := PyStr (py "Wire");
     sum_url := PyStr (py "https://n.example/9") |}.

Lemma create_summary_bounds_witness :
  @nil event = [] /\ len (sum_title long_word_summary) <= 100 /\
  len (sum_summary long_word_summary) <= 153.
Proof.
  apply (create_summary_bounds long_word_article silent_world [] long_word_summary []).
  vm_compute. reflexivity.
Defined.

(** Both bounds are reached. *)
Example create_summary_bounds_reached :
  len (sum_title long_word_summary) = 100 /\
  len (sum_summary long_word_summary) = 153.
Proof. split; vm_compute; reflexivity. Qed.



End CreateSummaryMore.

(** * Further properties of [NewsFetcher.search_news] *)

Section SearchNewsMore.

Import NewsFetcher.

Lemma filtered_usable (l : list article) :
  Forall usable_title (slice_to (filter has_title l) 6).
Proof.
  rewrite slice_to_nonneg by done. apply Forall_forall. intros a Ha.
  apply has_title_spec. apply subseteq_take in Ha.
  apply list_elem_of_filter in Ha as [Ha _]. by apply Is_true_true.
Qed.

(** The outcomes of [search_news]: one request, then either the filtered
    articles of an ['ok'] answer, or no article at all, with or without a
    logged error. *)
Lemma search_news_cases (query : pystr) (w : world) (tr : list event) :
  exists l logged,
    search_news query w tr =
      (Ok l, tr ++ EvGet (base_url ++ py "/everything") query :: logged) /\
    (logged = [] \/ (l = [] /\ exists text, logged = [EvLog ERROR text])) /\
    (l = [] \/
     exists r status articles la,
       w_get w tr query = Ok r /\
       resp_json r = Ok (Object status articles) /\
       dict_get articles (ArticlesList []) = ArticlesList la /\
       l = take 6 (filter has_title la)).
Proof.
  unfold search_news, Eff.try_except. rewrite search_news_try_eq.
  assert (Hfail : forall e,
    exists l logged,
      (do _ <- log ERROR (py "Error: " ++ exn_msg e); Eff.ret [])
        w (tr ++ [EvGet (base_url ++ py "/everything") query]) =
        (Ok l, tr ++ EvGet (base_url ++ py "/everything") query :: logged) /\
      (logged = [] \/ (l = [] /\ exists text, logged = [EvLog ERROR text])) /\
      (l = [] \/
       exists r status articles la,
         w_get w tr query = Ok r /\
         resp_json r = Ok (Object status articles) /\
         dict_get articles (ArticlesList []) = ArticlesList la /\
         l = take 6 (filter has_title la))).
  { intros e. exists [], [EvLog ERROR (py "Error: " ++ exn_msg e)].
    split; [|split; [right; eauto|by left]].
    unfold Eff.bind, log, Eff.emit, Eff.ret. by rewrite <- app_assoc. }
  destruct (w_get w tr query) as [r|e] eqn:Hget; [|apply Hfail].
  destruct (resp_json r) as [[ty|status articles]|e] eqn:Hjson;
    [apply Hfail| |apply Hfail].
  case_bool_decide.
  - destruct (dict_get articles (ArticlesList [])) as [|la] eqn:Harts;
      [apply Hfail|].
    exists (slice_to (filter has_title la) 6), [].
    split; [done|]. split; [by left|]. right.
    exists r, status, articles, la. by rewrite slice_to_nonneg.
  - exists [], []. split; [done|]. split; by left.
Qed.

(** X7: whatever the world answers, [search_news] makes one request, returns
    at most 6 articles, all with a usable title, and logs at most one
    error, in which case it returns no article. *)
Theorem search_news_always (query : pystr) (w : world) (tr : list event) :
  exists l logged,
    search_news query w tr =
      (Ok l, tr ++ EvGet (base_url ++ py "/everything") query :: logged) /\
    (length l <= 6)%nat /\
    Forall usable_title l /\
    (logged = [] \/ (l = [] /\ exists text, logged = [EvLog ERROR text])).
Proof.
  destruct (search_news_cases query w tr) as (l & logged & Hrun & Hlog & Hl).
  exists l, logged. split; [done|].
  destruct Hl as [->|(r & st & arts & la & _ & _ & _ & ->)].
  - split; [cbn; lia|]. split; [constructor|done].
  - split; [rewrite length_take; lia|]. split; [|done].
    rewrite <- (slice_to_nonneg _ 6) by done. apply filtered_usable.
Qed.

(** X8: a malformed answer is swallowed like a failed request: JSON that is
    not an object, or an ['ok'] answer whose ["articles"] is [null], gives
    the empty list and one logged error. *)
Theorem search_news_malformed (query : pystr) (w : world) (tr : list event)
    (r : response) :
  w_get w tr query = Ok r ->
  (exists ty, resp_json r = Ok (NotAnObject ty)) \/
  resp_json r = Ok (Object (Some (PyStr (py "ok"))) (Some ArticlesNull)) ->
  exists text,
    search_news query w tr =
      (Ok [], tr ++ [EvGet (base_url ++ py "/everything") query;
                     EvLog ERROR text]).
Proof.
  intros Hget Hbody. unfold search_news, Eff.try_except.
  rewrite search_news_try_eq, Hget.
  destruct Hbody as [[ty ->]| ->].
  - eexists. unfold Eff.bind, log, Eff.emit, Eff.ret.
    by rewrite <- app_assoc.
  - cbn [dict_get]. rewrite bool_decide_eq_true_2 by done.
    eexists. unfold Eff.bind, log, Eff.emit, Eff.ret.
    by rewrite <- app_assoc.
Qed.

(** A world whose API answers with a JSON array. *)
Definition array_world : world :=
  {| w_get := fun _ _ => Ok (Response (Ok (NotAnObject (py "list"))));
     w_smtp := fun _ _ => None;
     w_now := fun _ => py "January 01, 2025" |}.

Lemma search_news_malformed_witness :
  exists text,
    search_news (py "UPSC exam") array_world [] =
      (Ok [], [] ++ [EvGet (base_url ++ py "/everything") (py "UPSC exam");
                     EvLog ERROR text]).
Proof.
  apply (search_news_malformed (py "UPSC exam") array_world []
           (Response (Ok (NotAnObject (py "list"))))).
  - reflexivity.
  - left. by eexists.
Defined.

Example search_news_array_log :
  (search_news (py "UPSC exam") array_world []).2 =
    [EvGet (py "https://newsapi.org/v2/everything") (py "UPSC exam");
     EvLog ERROR (py "Error: 'list' object has no attribute 'get'")].
Proof. vm_compute. reflexivity. Qed.

End SearchNewsMore.

(** * Further properties of the deduplication loop *)

Section DedupMore.

Import NewsAutomator.

Implicit Types (seen : gset pyopt) (arts : list article) (a : article).

Lemma dedup_from_NoDup seen arts : NoDup (url_of <$> dedup_from seen arts).
Proof.
  revert seen. induction arts as [|a arts IH]; intros seen; cbn [dedup_from].
  - constructor.
  - destruct (negb (falsy (url_of a)) && negb (bool_decide (url_of a ∈ seen)));
      [|apply IH].
    cbn [fmap list_fmap]. constructor; [|apply IH].
    intros (b & Hb & Hin)%list_elem_of_fmap.
    apply dedup_from_elem in Hin as [_ Hin]. apply Hin. rewrite <- Hb.
    set_solver.
Qed.

Lemma dedup_from_idemp seen arts :
  dedup_from seen (dedup_from seen arts) = dedup_from seen arts.
Proof.
  revert seen. induction arts as [|a arts IH]; intros seen; cbn [dedup_from].
  - done.
  - destruct (negb (falsy (url_of a)) && negb (bool_decide (url_of a ∈ seen)))
      eqn:Hkeep; [|apply IH].
    cbn [dedup_from]. rewrite Hkeep. by rewrite IH.
Qed.

(** X9: the urls of the deduplicated list are pairwise distinct, and
    deduplicating again changes nothing. *)
Theorem dedup_unique (all_articles : list article) :
  NoDup (url_of <$> dedup all_articles) /\
  dedup (dedup all_articles) = dedup all_articles.
Proof.
  rewrite !dedup_eq. split; [apply dedup_from_NoDup|apply dedup_from_idemp].
Qed.

Lemma filter_ext_elem {A} (P Q : A -> Prop) `{!forall x, Decision (P x)}
    `{!forall x, Decision (Q x)} (l : list A) :
  (forall x, x ∈ l -> P x <-> Q x) -> filter P l = filter Q l.
Proof.
  induction l as [|x l IH]; intros Hext; [done|].
  rewrite !filter_cons. rewrite IH by (intros y Hy; apply Hext; by right).
  assert (Hx : P x <-> Q x) by (apply Hext; by left).
  destruct (decide (P x)) as [HP|HP], (decide (Q x)) as [HQ|HQ]; tauto || done.
Qed.

(** Starting with one more url seen removes the articles with that url. *)
Lemma dedup_from_seen (u : pyopt) seen arts :
  dedup_from ({[u]} ∪ seen) arts =
    filter (fun a => url_of a <> u) (dedup_from seen arts).
Proof.
  revert seen. induction arts as [|a arts IH]; intros seen; cbn [dedup_from].
  - done.
  - destruct (falsy (url_of a)) eqn:Hf; cbn [negb andb]; [apply IH|].
    destruct (decide (url_of a ∈ seen)) as [Hin|Hin].
    + rewrite !bool_decide_eq_true_2 by set_solver. cbn [negb]. apply IH.
    + rewrite (bool_decide_eq_false_2 (url_of a ∈ seen)) by done. cbn [negb].
      destruct (decide (url_of a = u)) as [Heq|Hne].
      * rewrite bool_decide_eq_true_2 by set_solver. cbn [negb].
        rewrite filter_cons_False by (intros H; by apply H).
        rewrite Heq. rewrite !IH.
        rewrite list_filter_filter. apply filter_ext_elem. tauto.
      * rewrite bool_decide_eq_false_2 by set_solver. cbn [negb].
        rewrite filter_cons_True by done. f_equal.
        assert (Hset : {[url_of a]} ∪ ({[u]} ∪ seen) = {[u]} ∪ ({[url_of a]} ∪ seen))
          by set_solver.
        rewrite Hset. apply IH.
Qed.

Lemma dedup_from_app seen (l1 l2 : list article) :
  dedup_from seen (l1 ++ l2) =
    dedup_from seen l1
    ++ filter (fun a => url_of a ∉ url_of <$> l1) (dedup_from seen l2).
Proof.
  revert seen. induction l1 as [|a l1 IH]; intros seen.
  - cbn [app dedup_from fmap list_fmap].
    rewrite (filter_ext_elem _ (fun _ => True)).
    + clear. induction (dedup_from seen l2) as [|x l IH]; [done|].
      rewrite filter_cons_True by done. by f_equal.
    + intros x _. split; [done|]. intros _. apply not_elem_of_nil.
  - change ((a :: l1) ++ l2) with (a :: (l1 ++ l2)). cbn [dedup_from].
    destruct (negb (falsy (url_of a)) && negb (bool_decide (url_of a ∈ seen)))
      eqn:Hkeep.
    + rewrite IH. cbn [app]. f_equal. f_equal.
      rewrite dedup_from_seen, list_filter_filter.
      apply filter_ext_elem. intros x _. cbn [fmap list_fmap].
      rewrite not_elem_of_cons. tauto.
    + rewrite IH. f_equal. apply filter_ext_elem. intros x Hx.
      cbn [fmap list_fmap]. rewrite not_elem_of_cons.
      apply dedup_from_elem in Hx as [Hfx Hsx].
      split; [|tauto]. intros H. split; [|done]. intros Heq.
      apply andb_false_iff in Hkeep as [Hk|Hk].
      * apply negb_false_iff in Hk. congruence.
      * apply negb_false_iff, bool_decide_eq_true_1 in Hk. congruence.
Qed.

(** X10: first seen wins across queries: after the articles [l1] of earlier
    queries, the articles [l2] of a later query add their first
    occurrences of the urls that [l1] does not have. *)
Theorem dedup_app (l1 l2 : list article) :
  dedup (l1 ++ l2) =
    dedup l1 ++ filter (fun a => url_of a ∉ url_of <$> l1) (dedup l2).
Proof. rewrite !dedup_eq. apply dedup_from_app. Qed.

Example dedup_app_sample :
  dedup ([mk_article "Rates held" "https://n.example/2"]
         ++ [mk_article "Rates unchanged" "https://n.example/2";
             mk_article "Exam dates" "https://n.example/6"]) =
    [mk_article "Rates held" "https://n.example/2";
     mk_article "Exam dates" "https://n.example/6"].
Proof. vm_compute. reflexivity. Qed.

End DedupMore.

(** * Further properties of [NewsAutomator.fetch_all_news] *)

Section FetchMore.

Import NewsFetcher NewsSummarizer NewsAutomator.

Lemma fetch_categories_keys (entries : list (pystr * list pystr))
    (nd0 : digest) (w : world) (tr : list event) (nd : digest)
    (tr' : list event) :
  Eff.for_each entries fetch_category nd0 w tr = (Ok nd, tr') ->
  forall cat : pystr,
    is_Some (nd !! cat) <-> is_Some (nd0 !! cat) \/ cat ∈ entries.*1.
Proof.
  revert nd0 tr. induction entries as [|[cat0 queries] entries IH];
    intros nd0 tr Hrun cat; cbn [Eff.for_each] in Hrun.
  - injection Hrun as <- _. cbn [fmap list_fmap]. rewrite elem_of_nil. tauto.
  - apply bind_ok_inv in Hrun as (nd1 & tr1 & Hstep & Hrun).
    apply fetch_category_ok in Hstep as (arts & sums & -> & _).
    rewrite (IH _ _ Hrun cat). cbn [fmap list_fmap fst]. rewrite elem_of_cons.
    destruct (decide (cat0 = cat)) as [->|Hne].
    + rewrite lookup_insert_eq. split; [intros _; right; by left|eauto].
    + rewrite lookup_insert_ne by done. split; [tauto|].
      intros [?|[?|?]]; [tauto|congruence|tauto].
Qed.

(** X11: a returned digest has exactly the eight keys of [TOPICS], the
    categories without articles included. *)
Theorem digest_keys (w : world) (tr : list event) (nd : digest)
    (tr' : list event) :
  fetch_all_news w tr = (Ok nd, tr') ->
  (forall cat : pystr, is_Some (nd !! cat) <-> cat ∈ TOPICS.*1) /\
  size nd = 8%nat.
Proof.
  intros Hrun.
  assert (Hkeys : forall cat : pystr, is_Some (nd !! cat) <-> cat ∈ TOPICS.*1).
  { intros cat. rewrite (fetch_categories_keys _ _ _ _ _ _ Hrun cat).
    rewrite lookup_empty. split; [intros [[? ?]|?]; done|by right]. }
  split; [done|].
  assert (Hdom : dom nd = list_to_set TOPICS.*1).
  { apply set_eq. intros cat.
    rewrite elem_of_dom, Hkeys, elem_of_list_to_set. done. }
  rewrite <- size_dom, Hdom. vm_compute. reflexivity.
Qed.

Lemma digest_keys_witness :
  (forall cat : pystr, is_Some (silent_digest !! cat) <-> cat ∈ TOPICS.*1) /\
  size silent_digest = 8%nat.
Proof.
  apply (digest_keys silent_world ([] ++ [EvLog INFO start_message])
           silent_digest silent_fetch.2).
  vm_compute. reflexivity.
Defined.

Lemma summaries_urls (w : world) (arts : list article) (l : list summary) :
  Forall2 (summary_of w) arts l -> sum_url <$> l = url_of <$> arts.
Proof.
  induction 1 as [|a s arts l (tr1 & tr2 & Hs) _ IH]; [done|].
  cbn [fmap list_fmap]. apply create_summary_ok in Hs as (_ & -> & _).
  f_equal. apply IH.
Qed.

(** X12: within one category of a returned digest no url occurs twice. *)
Theorem digest_urls_unique (w : world) (tr : list event) (nd : digest)
    (tr' : list event) (cat : pystr) (l : list summary) :
  fetch_all_news w tr = (Ok nd, tr') ->
  nd !! cat = Some l ->
  NoDup (sum_url <$> l).
Proof.
  intros Hrun Hl.
  destruct (fetch_all_news_lists _ _ _ _ Hrun _ _ Hl) as (_ & arts & Hsum).
  rewrite (summaries_urls _ _ _ Hsum), fmap_take.
  eapply sublist_NoDup; [|apply sublist_take].
  rewrite dedup_eq. apply dedup_from_NoDup.
Qed.

Lemma digest_urls_unique_witness :
  NoDup (sum_url <$> EmailSender.articles_of sample_digest (py "health")).
Proof.
  apply (digest_urls_unique (answering_world sample_articles) [] sample_digest
           sample_run.2 (py "health")).
  - vm_compute. reflexivity.
  - vm_compute. reflexivity.
Defined.

End FetchMore.

(** * What a fetch asks of the network *)

(** The queries requested along a trace, and the pauses taken, in order. *)
Definition requests (tr : list event) : list pystr :=
  omap (fun ev => match ev with EvGet _ q => Some q | _ => None end) tr.

Definition sleeps (tr : list event) : list Z :=
  omap (fun ev => match ev with EvSleep ms => Some ms | _ => None end) tr.

Section FetchTrace.

Import NewsFetcher NewsSummarizer NewsAutomator.

Lemma requests_app (t1 t2 : list event) :
  requests (t1 ++ t2) = requests t1 ++ requests t2.
Proof. apply omap_app. Qed.

Lemma sleeps_app (t1 t2 : list event) :
  sleeps (t1 ++ t2) = sleeps t1 ++ sleeps t2.
Proof. apply omap_app. Qed.

Lemma search_news_trace (query : pystr) (w : world) (tr : list event) :
  exists l new,
    search_news query w tr = (Ok l, tr ++ new) /\
    requests new = [query] /\ sleeps new = [].
Proof.
  destruct (search_news_cases query w tr) as (l & logged & Hrun & Hlog & _).
  exists l, (EvGet (base_url ++ py "/everything") query :: logged).
  split; [done|]. by destruct Hlog as [->|(_ & text & ->)].
Qed.

Lemma fetch_queries_trace (queries : list pystr) (acc : list article)
    (w : world) (tr : list event) :
  exists all_articles new,
    Eff.for_each queries
      (fun query all_articles =>
         do articles <- search_news query;
         let all_articles := all_articles ++ articles in
         do _ <- sleep 500;
         Eff.ret all_articles)
      acc w tr = (Ok all_articles, tr ++ new) /\
    requests new = queries /\
    sleeps new = replicate (length queries) 500.
Proof.
  revert acc tr. induction queries as [|query queries IH]; intros acc tr.
  - exists acc, []. by rewrite app_nil_r.
  - cbn [Eff.for_each].
    destruct (search_news_trace query w tr) as (l & new1 & Hs & Hr1 & Hs1).
    destruct (IH (acc ++ l) ((tr ++ new1) ++ [EvSleep 500]))
      as (all_articles & new2 & Hrest & Hr2 & Hs2).
    exists all_articles, (new1 ++ [EvSleep 500] ++ new2).
    split; [|split].
    + erewrite bind_ok.
      2:{ erewrite bind_ok by exact Hs. cbv zeta.
          unfold Eff.bind, sleep, Eff.emit, Eff.ret. reflexivity. }
      etrans; [exact Hrest|]. by rewrite <- !app_assoc.
    + rewrite !requests_app, Hr1, Hr2. done.
    + rewrite !sleeps_app, Hs1, Hs2. done.
Qed.

Lemma create_summary_trace (a : article) (w : world) (tr : list event) :
  (create_summary a w tr).2 = tr.
Proof.
  unfold create_summary, Eff.bind, Eff.ret, Eff.raise.
  destruct (dict_get (art_title a) _); [done|].
  by destruct (dict_get (art_source a) _).
Qed.

Lemma map_m_create_summary_trace (l : list article) (w : world)
    (tr : list event) :
  (Eff.map_m create_summary l w tr).2 = tr.
Proof.
  induction l as [|a l IH]; [done|]. cbn [Eff.map_m]. unfold Eff.bind at 1.
  pose proof (create_summary_trace a w tr) as Ha.
  destruct (create_summary a w tr) as [[s|e] tr1]; cbn [snd] in Ha; subst tr1;
    [|done].
  unfold Eff.bind. destruct (Eff.map_m create_summary l w tr) as [[ss|e] tr1];
    cbn [snd] in IH; by subst tr1.
Qed.

Lemma fetch_category_trace (entry : pystr * list pystr) (nd : digest)
    (w : world) (tr : list event) :
  exists new,
    (fetch_category entry nd w tr).2 = tr ++ new /\
    requests new = entry.2 /\
    sleeps new = replicate (length entry.2) 500.
Proof.
  destruct entry as [cat queries]. unfold fetch_category, fetch_queries.
  destruct (fetch_queries_trace queries [] w tr)
    as (all_articles & new & Hq & Hr & Hs).
  exists new. split; [|done].
  erewrite bind_ok by exact Hq. unfold Eff.bind.
  pose proof (map_m_create_summary_trace (slice_to (dedup all_articles) 4) w
                (tr ++ new)) as Hm.
  by destruct (Eff.map_m create_summary _ w (tr ++ new)) as [[ss|e] tr1];
    cbn [snd] in Hm; subst tr1.
Qed.

Lemma fetch_categories_trace (entries : list (pystr * list pystr))
    (nd0 : digest) (w : world) (tr : list event) (nd : digest)
    (tr' : list event) :
  Eff.for_each entries fetch_category nd0 w tr = (Ok nd, tr') ->
  exists new,
    tr' = tr ++ new /\
    requests new = mjoin entries.*2 /\
    sleeps new = replicate (length (mjoin entries.*2)) 500.
Proof.
  revert nd0 tr. induction entries as [|entry entries IH]; intros nd0 tr Hrun;
    cbn [Eff.for_each] in Hrun.
  - injection Hrun as <- <-. exists []. by rewrite app_nil_r.
  - apply bind_ok_inv in Hrun as (nd1 & tr1 & Hstep & Hrun).
    destruct (fetch_category_trace entry nd0 w tr) as (new1 & Htr1 & Hr1 & Hs1).
    rewrite Hstep in Htr1. cbn [snd] in Htr1. subst tr1.
    destruct (IH _ _ Hrun) as (new2 & -> & Hr2 & Hs2).
    exists (new1 ++ new2). split; [by rewrite app_assoc|].
    rewrite fmap_cons.
    change (mjoin (entry.2 :: entries.*2)) with (entry.2 ++ mjoin entries.*2).
    rewrite requests_app, sleeps_app, Hr1, Hr2, Hs1, Hs2.
    split; [done|]. by rewrite length_app, replicate_add.
Qed.

(** X13: a fetch that returns has asked the 29 queries of [TOPICS], in their
    order, once each, and has paused half a second after each request. *)
Theorem fetch_all_news_requests (w : world) (tr : list event) (nd : digest)
    (tr' : list event) :
  fetch_all_news w tr = (Ok nd, tr') ->
  exists new,
    tr' = tr ++ new /\
    requests new = mjoin TOPICS.*2 /\
    length (requests new) = 29%nat /\
    sleeps new = replicate 29 500.
Proof.
  intros (new & -> & Hr & Hs)%fetch_categories_trace.
  exists new. split; [done|]. split; [done|]. rewrite Hr, Hs.
  split; vm_compute; reflexivity.
Qed.

Lemma fetch_all_news_requests_witness :
  exists new,
    sample_run.2 = [] ++ new /\
    requests new = mjoin TOPICS.*2 /\
    length (requests new) = 29%nat /\
    sleeps new = replicate 29 500.
Proof.
  apply (fetch_all_news_requests (answering_world sample_articles) []
           sample_digest sample_run.2).
  vm_compute. reflexivity.
Defined.

End FetchTrace.

(** * Runs that return *)

Section RunMore.

Import NewsFetcher NewsSummarizer EmailSender NewsAutomator.







(** The subject line of a run. *)
Definition subject_of (date_str : pystr) (total : Z) : pystr :=
  py "📰 Daily News - " ++ date_str ++ py " (" ++ str_of_int total
  ++ py " updates)".





(** A world with news whose mail server refuses the login. *)
Definition refusing_world : world :=
  {| w_get := w_get (answering_world sample_articles);
     w_smtp := fun _ _ => Some (Exn SMTPException (py "authentication failed"));
     w_now := fun _ => py "January 01, 2025" |}.

Example run_refused :
  let '(r, trace) := run sample_config refusing_world [] in
  r = Ok false /\
  length (filter is_smtp trace) = 1%nat /\
  drop (length trace - 2) trace =
    [EvLog ERROR (py "❌ Error: authentication failed");
     EvLog INFO (py "✅ Done! Sent 32 articles")].
Proof. vm_compute. repeat split. Qed.

Example run_subject :
  subject_of (py "January 01, 2025") 32 =
    py "📰 Daily News - January 01, 2025 (32 updates)".
Proof. vm_compute. reflexivity. Qed.

(** ** Fetches that cannot raise *)







Lemma dedup_subseteq (arts : list article) : dedup arts ⊆ arts.
Proof. rewrite dedup_eq. apply sublist_subseteq, dedup_from_sublist. Qed.






(** One article with ["source": null] among the first four of a category
    makes the fetch, and the run, raise. *)
Definition unsourced_world : world :=
  answering_world
    [ {| art_title := Some (PyStr (py "Budget day"));
         art_description := None;
         art_source := Some SourceNull;
         art_url := Some (PyStr (py "https://n.example/1")) |} ].

Example run_raises :
  (run sample_config unsourced_world []).1 =
    Raise (Exn AttributeError (py "'NoneType' object has no attribute 'get'")).
Proof. vm_compute. reflexivity. Qed.

End RunMore.

(** * The shape of the summaries of a digest *)

Section DigestShape.

Import NewsFetcher NewsSummarizer NewsAutomator.

Lemma search_news_usable (query : pystr) (w : world) (tr : list event)
    (l : list article) (tr' : list event) :
  search_news query w tr = (Ok l, tr') -> Forall usable_title l.
Proof.
  intros Hrun.
  destruct (search_news_cases query w tr) as (l' & logged & Hrun' & _ & Hl).
  rewrite Hrun in Hrun'. injection Hrun' as -> _.
  destruct Hl as [->|(r & st & arts & la & _ & _ & _ & ->)]; [constructor|].
  rewrite <- (slice_to_nonneg _ 6) by done. apply filtered_usable.
Qed.

Lemma fetch_queries_usable (queries : list pystr) (w : world)
    (tr : list event) (all_articles : list article) (tr' : list event) :
  fetch_queries queries w tr = (Ok all_articles, tr') ->
  Forall usable_title all_articles.
Proof.
  unfold fetch_queries.
  apply (for_each_inv (Forall usable_title)); [|constructor].
  intros query acc tr0 acc' tr0' _ Hacc Hstep.
  apply bind_ok_inv in Hstep as (l & tr1 & Hs & Hstep).
  cbv zeta in Hstep. apply bind_ok_inv in Hstep as ([] & tr2 & _ & Hstep).
  injection Hstep as <- _. apply Forall_app. split; [done|].
  by eapply search_news_usable.
Qed.

Lemma create_summary_title (a : article) (w : world) (tr : list event)
    (s : summary) (tr' : list event) :
  usable_title a ->
  create_summary a w tr = (Ok s, tr') ->
  sum_title s <> [].
Proof.
  intros (t & Ht & Hne & _) (_ & _ & _ & ->)%create_summary_ok.
  rewrite Ht. cbn [dict_get py_str]. rewrite slice_to_nonneg by done.
  by destruct t.
Qed.

(** X17: every summary of a returned digest has a non-empty title of at most
    100 characters and a text of at most 153 characters. *)
Theorem digest_summary_shape (w : world) (tr : list event) (nd : digest)
    (tr' : list event) (cat : pystr) (l : list summary) (s : summary) :
  fetch_all_news w tr = (Ok nd, tr') ->
  nd !! cat = Some l ->
  s ∈ l ->
  sum_title s <> [] /\ len (sum_title s) <= 100 /\ len (sum_summary s) <= 153.
Proof.
  unfold fetch_all_news. intros Hrun.
  revert cat l s.
  apply (for_each_inv
           (fun nd : digest =>
              forall (cat : pystr) (l : list summary) (s : summary),
                nd !! cat = Some l -> s ∈ l ->
                sum_title s <> [] /\ len (sum_title s) <= 100 /\
                len (sum_summary s) <= 153)
           fetch_category TOPICS w) with (acc := ∅) (tr := tr) (tr' := tr');
    [| |exact Hrun].
  - intros [cat0 queries] acc tr0 acc' tr0' _ Hacc Hstep cat l s Hl Hs.
    unfold fetch_category in Hstep.
    apply bind_ok_inv in Hstep as (arts & tr1 & Hq & Hstep).
    apply bind_ok_inv in Hstep as (sums & tr2 & Hsums & Hstep).
    injection Hstep as <- _.
    destruct (decide (cat0 = cat)) as [->|Hne];
      [|rewrite lookup_insert_ne in Hl by done; by eapply Hacc].
    rewrite lookup_insert_eq in Hl. injection Hl as <-.
    apply fetch_queries_usable in Hq.
    apply map_m_ok_inv in Hsums. rewrite slice_to_nonneg in Hsums by done.
    apply list_elem_of_lookup in Hs as [i Hi].
    destruct (Forall2_lookup_r _ _ _ _ _ Hsums Hi) as (a & Ha & tr3 & tr4 & Hsa).
    assert (Hua : usable_title a).
    { rewrite Forall_forall in Hq. apply Hq.
      apply list_elem_of_lookup_2, subseteq_take in Ha.
      by apply dedup_subseteq. }
    split; [by eapply create_summary_title|].
    apply create_summary_ok in Hsa as (_ & _ & -> & ->).
    split; [by apply len_slice_to|].
    destruct (clean_text_len_cases (dict_get (art_description a) (PyStr [])) 150)
      as [->|Hle]; [lia|rewrite len_no_details; lia|].
    rewrite len_ellipsis in Hle. lia.
  - intros cat l s Hl. by rewrite lookup_empty in Hl.
Qed.

Lemma digest_summary_shape_witness :
  sum_title {| sum_title := py "Budget day";
               sum_summary := py "No details available";
               sum_source := PyStr (py "Unknown");
               sum_url := PyStr (py "https://n.example/1") |} <> [] /\
  len (sum_title {| sum_title := py "Budget day";
                    sum_summary := py "No details available";
                    sum_source := PyStr (py "Unknown");
                    sum_url := PyStr (py "https://n.example/1") |}) <= 100 /\
  len (sum_summary {| sum_title := py "Budget day";
                      sum_summary := py "No details available";
                      sum_source := PyStr (py "Unknown");
                      sum_url := PyStr (py "https://n.example/1") |}) <= 153.
Proof.
  apply (digest_summary_shape (answering_world sample_articles) []
           sample_digest sample_run.2 (py "technology")
           (EmailSender.articles_of sample_digest (py "technology"))).
  - vm_compute. reflexivity.
  - vm_compute. reflexivity.
  - vm_compute. left.
Defined.

End DigestShape.

(** * The foot of the HTML agrees with its sections *)

Section Foot.

Import EmailSender NewsAutomator.

(** 1 for a category with articles, 0 for an empty one. *)
Definition populated_count (l : list summary) : Z :=
  match l with
  | [] => 0
  | _ => 1
  end.

Lemma count_perm (ls ls' : list (list summary)) :
  ls ≡ₚ ls' ->
  foldr (fun l acc => populated_count l + acc) 0 ls =
  foldr (fun l acc => populated_count l + acc) 0 ls'.
Proof. induction 1; cbn [foldr]; lia. Qed.

Lemma nonempty_categories_count (nd : digest) :
  nonempty_categories nd =
    foldr (fun l acc => populated_count l + acc) 0 (map_to_list nd).*2.
Proof.
  unfold nonempty_categories.
  induction (map_to_list nd) as [|[k l] kvs IH]; [done|].
  rewrite filter_cons, fmap_cons. cbn [foldr snd]. rewrite <- IH.
  destruct l as [|s l].
  - rewrite decide_False by (intros H; by apply H). cbn [populated_count]. lia.
  - rewrite decide_True by done. cbn [populated_count]. unfold len.
    cbn [length]. lia.
Qed.

Lemma shown_count (nd : digest) (entries : list (pystr * (pystr * pystr * pystr))) :
  len (filter (populated nd) entries) =
    foldr (fun k acc => populated_count (articles_of nd k) + acc) 0 entries.*1.
Proof.
  induction entries as [|entry entries IH]; [done|].
  rewrite filter_cons, fmap_cons. cbn [foldr]. rewrite <- IH.
  destruct (decide (populated nd entry)) as [Hp|Hp]; unfold populated in Hp.
  - destruct (articles_of nd entry.1) as [|s l]; [done|].
    cbn [populated_count]. unfold len. cbn [length]. lia.
  - destruct (articles_of nd entry.1) as [|s l]; [|by destruct Hp].
    cbn [populated_count]. lia.
Qed.

Lemma count_keys_insert (nd : digest) (cat : pystr) (l : list summary)
    (keys : list pystr) :
  nd !! cat = None -> NoDup keys ->
  foldr (fun k acc => populated_count (articles_of (<[cat := l]> nd) k) + acc) 0 keys =
    (if decide (cat ∈ keys) then populated_count l else 0)
    + foldr (fun k acc => populated_count (articles_of nd k) + acc) 0 keys.
Proof.
  intros Hnone. induction 1 as [|k keys Hk Hnd IH].
  - by rewrite decide_False by apply not_elem_of_nil.
  - cbn [foldr]. rewrite IH.
    assert (Hone : populated_count (articles_of (<[cat := l]> nd) k) =
                   (if decide (cat = k) then populated_count l else 0)
                   + populated_count (articles_of nd k)).
    { unfold articles_of. destruct (decide (cat = k)) as [->|Hne].
      - rewrite lookup_insert_eq, Hnone. simpl. lia.
      - by rewrite lookup_insert_ne. }
    rewrite Hone. destruct (decide (cat = k)) as [->|Hne].
    + rewrite (decide_True (P := k ∈ k :: keys)) by left.
      rewrite (decide_False (P := k ∈ keys)) by done. lia.
    + destruct (decide (cat ∈ keys)) as [Hin|Hin].
      * rewrite (decide_True (P := cat ∈ k :: keys)) by (by right). lia.
      * rewrite (decide_False (P := cat ∈ k :: keys)); [lia|].
        by intros [?|?]%elem_of_cons.
Qed.

Lemma count_keys_map (keys : list pystr) (nd : digest) :
  NoDup keys ->
  (forall k, is_Some (nd !! k) -> k ∈ keys) ->
  foldr (fun k acc => populated_count (articles_of nd k) + acc) 0 keys =
  foldr (fun l acc => populated_count l + acc) 0 (map_to_list nd).*2.
Proof.
  intros Hnd. induction nd as [|cat l nd Hnone IH] using map_ind; intros Hdom.
  - rewrite map_to_list_empty. cbn [fmap list_fmap foldr].
    clear. induction keys as [|k keys IH]; [done|]. cbn [foldr]. rewrite IH.
    unfold articles_of. by rewrite lookup_empty.
  - rewrite count_keys_insert by done.
    rewrite (count_perm _ (l :: (map_to_list nd).*2))
      by (by rewrite map_to_list_insert).
    cbn [foldr]. rewrite decide_True by (apply Hdom; by rewrite lookup_insert_eq).
    rewrite IH; [done|]. intros k Hk. apply Hdom.
    rewrite lookup_insert_ne; [done|]. intros ->. rewrite Hnone in Hk.
    by destruct Hk.
Qed.

(** X18: for a returned digest, the number of categories the HTML foot reports
    is the number of sections rendered. *)
Theorem foot_counts_sections (w : world) (tr : list event) (nd : digest)
    (tr' : list event) :
  fetch_all_news w tr = (Ok nd, tr') ->
  nonempty_categories nd = len (shown nd).
Proof.
  intros Hrun. rewrite nonempty_categories_count. unfold shown.
  rewrite shown_count. symmetry.
  apply count_keys_map; [apply cat_info_keys_NoDup|].
  intros k [l Hl]. apply keys_agree.
  by destruct (fetch_all_news_lists _ _ _ _ Hrun _ _ Hl).
Qed.

Lemma foot_counts_sections_witness :
  nonempty_categories sample_digest = len (shown sample_digest).
Proof.
  apply (foot_counts_sections (answering_world sample_articles) []
           sample_digest sample_run.2).
  vm_compute. reflexivity.
Defined.

(** For a digest with a key the renderer does not know, the foot counts a
    category that has no section, and leaves its articles out of the
    total. *)
Example foot_unknown_category :
  let nd : digest :=
    {[ py "sports" :=
         [ {| sum_title := py "Final"; sum_summary := py "Result";
              sum_source := PyStr (py "Wire");
              sum_url := PyStr (py "https://n.example/s") |} ] ]} in
  nonempty_categories nd = 1 /\ len (shown nd) = 0 /\ rendered_total nd = 0.
Proof. vm_compute. repeat split. Qed.

End Foot.
